(** * A shallow embedding of the Speckle MCP server (speckle_server.py,
    http_wrapper.py): the path navigator [get_property_by_path], the
    object converter [SpeckleObjectConverter], the [handle_exceptions]
    boundary and the HTTP mirror of the tools. *)

From Stdlib Require Import List String Ascii NArith ZArith Bool Lia.
Import ListNotations.
Set Warnings "-register-all".
Open Scope list_scope.

(** ** Python strings

    A Python [str] is a sequence of Unicode code points. *)

Definition pystr := list N.

(** ASCII literals as code-point strings. *)
Definition u (s : string) : pystr := map N_of_ascii (list_ascii_of_string s).

Fixpoint str_eqb (a b : pystr) : bool :=
  match a, b with
  | [], [] => true
  | x :: a', y :: b' => N.eqb x y && str_eqb a' b'
  | _, _ => false
  end.

(** [key.startswith("_")] *)
Definition starts_underscore (k : pystr) : bool :=
  match k with
  | c :: _ => N.eqb c 95
  | [] => false
  end.

(** Decimal rendering of a natural number, as in an f-string [{n}]. *)
Fixpoint dec_aux (fuel : nat) (n : N) (acc : pystr) : pystr :=
  match fuel with
  | O => acc
  | S f =>
      let acc' := (48 + n mod 10)%N :: acc in
      if (n <? 10)%N then acc' else dec_aux f (n / 10)%N acc'
  end.

Definition show_N (n : N) : pystr := dec_aux (S (N.size_nat n)) n [].
Definition show_nat (n : nat) : pystr := show_N (N.of_nat n).

(** ** Python values

    [PFloat r] is a float, [r] its [repr()] (['nan'], ['inf'] and ['-inf']
    for the special values).  [PObj attrs dict to_dict repr] is an instance
    of a class that derives from none of the builtin value types: [attrs] is what
    [getattr]/[hasattr] see on it, [dict] its [__dict__] when it has one,
    [to_dict] is [None] when it has no callable [to_dict], [Some None] when
    calling [to_dict()] raises and [Some (Some d)] when it returns [d];
    [repr] is [str(obj)].  Mappings are insertion-ordered association lists
    with string keys.  Tuples and instances of subclasses of the builtin
    types are not modelled.  Values are finite trees; the object graphs
    with sharing and cycles are modelled by [hval] below, for
    [convert_value]. *)

Inductive pyval : Type :=
| PNone
| PBool (b : bool)
| PInt (z : Z)
| PFloat (r : pystr)
| PStr (s : pystr)
| PList (xs : list pyval)
| PDict (kvs : list (pystr * pyval))
| PObj (attrs : list (pystr * pyval)) (dict : option (list (pystr * pyval)))
       (to_dict : option (option (list (pystr * pyval)))) (repr : pystr).

Definition opt_all {A} (P : A -> Prop) (o : option A) : Prop :=
  match o with None => True | Some a => P a end.

Section pyval_ind'.
Variable P : pyval -> Prop.
Hypothesis HNone : P PNone.
Hypothesis HBool : forall b, P (PBool b).
Hypothesis HInt : forall z, P (PInt z).
Hypothesis HFloat : forall r, P (PFloat r).
Hypothesis HStr : forall s, P (PStr s).
Hypothesis HList : forall xs, Forall P xs -> P (PList xs).
Hypothesis HDict : forall kvs, Forall (fun kv => P (snd kv)) kvs -> P (PDict kvs).
Hypothesis HObj : forall attrs od td r,
  Forall (fun kv => P (snd kv)) attrs ->
  opt_all (Forall (fun kv => P (snd kv))) od ->
  opt_all (opt_all (Forall (fun kv => P (snd kv)))) td ->
  P (PObj attrs od td r).

Fixpoint pyval_ind' (v : pyval) : P v :=
  let fix go_list (xs : list pyval) : Forall P xs :=
    match xs with
    | [] => Forall_nil _
    | y :: ys => Forall_cons _ (pyval_ind' y) (go_list ys)
    end in
  let fix go_kvs (kvs : list (pystr * pyval)) : Forall (fun kv => P (snd kv)) kvs :=
    match kvs with
    | [] => Forall_nil _
    | (k, y) :: r => @Forall_cons _ (fun kv => P (snd kv)) (k, y) r (pyval_ind' y) (go_kvs r)
    end in
  match v with
  | PNone => HNone
  | PBool b => HBool b
  | PInt z => HInt z
  | PFloat r => HFloat r
  | PStr s => HStr s
  | PList xs => HList xs (go_list xs)
  | PDict kvs => HDict kvs (go_kvs kvs)
  | PObj attrs od td r =>
      HObj attrs od td r (go_kvs attrs)
        (match od as o return opt_all (Forall (fun kv => P (snd kv))) o with
         | None => I | Some d => go_kvs d end)
        (match td as o return opt_all (opt_all (Forall (fun kv => P (snd kv)))) o with
         | None => I
         | Some None => I
         | Some (Some d) => go_kvs d
         end)
  end.
End pyval_ind'.

(** [d.get(k)] / first binding of [k]. *)
Fixpoint assoc (k : pystr) (kvs : list (pystr * pyval)) : option pyval :=
  match kvs with
  | [] => None
  | (k', v) :: r => if str_eqb k k' then Some v else assoc k r
  end.

Definition dict_get (k : pystr) (kvs : list (pystr * pyval)) : pyval :=
  match assoc k kvs with Some v => v | None => PNone end.

(** [d[k] = v] on an insertion-ordered dict: an existing key keeps its
    position and gets the new value, a new key goes last. *)
Fixpoint dict_set (kvs : list (pystr * pyval)) (k : pystr) (v : pyval) : list (pystr * pyval) :=
  match kvs with
  | [] => [(k, v)]
  | (k', v') :: r => if str_eqb k k' then (k', v) :: r else (k', v') :: dict_set r k v
  end.

(** ** SpeckleObjectConverter.convert_to_dict *)

Definition limit : nat := 5.

(** [{"id": ..., "_type": "reference"}] *)
Definition reference_stub (id : pyval) : pyval :=
  PDict [(u "id", id); (u "_type", PStr (u "reference"))].

(** [f"...{n} more items"] *)
Definition note_msg (n : nat) : pystr := u "..." ++ show_nat n ++ u " more items".

(** [[f(x) for x in l[:n]]] *)
Fixpoint map_take {A B} (f : A -> B) (n : nat) (l : list A) : list B :=
  match n, l with
  | S n', x :: r => f x :: map_take f n' r
  | _, _ => []
  end.

(** [{k: f(v) for k, v in items if not k.startswith("_")}] *)
Fixpoint keep_public (f : pyval -> pyval) (kvs : list (pystr * pyval)) : list (pystr * pyval) :=
  match kvs with
  | [] => []
  | (k, v) :: r => if starts_underscore k then keep_public f r else (k, f v) :: keep_public f r
  end.

(** [_process_list], [_process_dict] and [_process_value], over the
    converter [conv] they call back ([conv item depth]). *)
Definition process_list_with (conv : pyval -> nat -> pyval) (items : list pyval) (depth : nat) : pyval :=
  match items with
  | [] => PList []
  | _ =>
      PList (map_take (fun item => conv item (S depth)) limit items
             ++ (if limit <? List.length items
                 then [PDict [(u "_note", PStr (note_msg (List.length items - limit)))]]
                 else []))
  end.

Definition process_dict_with (conv : pyval -> nat -> pyval) (data : list (pystr * pyval)) (depth : nat) : pyval :=
  match data with
  | [] => PDict []
  | _ =>
      let result := map_take (fun '(k, v) => (k, conv v (S depth))) limit data in
      PDict (if limit <? List.length data
             then dict_set result (u "_note") (PStr (note_msg (List.length data - limit)))
             else result)
  end.

Definition process_value_with (conv : pyval -> nat -> pyval) (value : pyval) (depth : nat) : pyval :=
  match value with
  | PList xs => process_list_with conv xs depth
  | PDict kvs => process_dict_with conv kvs depth
  | PObj _ _ _ _ => conv value (S depth)
  | _ => value
  end.

(** [getattr(obj, "id", None)]: builtin values have no [id] attribute. *)
Definition getattr_id (x : pyval) : pyval :=
  match x with
  | PObj attrs _ _ _ => dict_get (u "id") attrs
  | _ => PNone
  end.

Fixpoint convert_to_dict (x : pyval) (depth max_depth : nat) (include_children : bool) {struct x} : pyval :=
  let cut := (max_depth <? depth) && negb include_children in
  match x with
  | PObj attrs od td r =>
      match td with
      | Some (Some data) =>
          (* to_dict() succeeded: _process_dict_result *)
          if cut then reference_stub (dict_get (u "id") data)
          else PDict (keep_public (fun v => process_value_with
                         (fun y d => convert_to_dict y d max_depth include_children) v depth) data)
      | _ =>
          (* no to_dict, or it raised: custom conversion *)
          if cut then reference_stub (dict_get (u "id") attrs)
          else match od with
               | Some d => PDict (keep_public (fun v => process_value_with
                              (fun y d' => convert_to_dict y d' max_depth include_children) v depth) d)
               | None => PStr r
               end
      end
  | PList xs =>
      if cut then reference_stub PNone
      else process_list_with (fun y d => convert_to_dict y d max_depth include_children) xs depth
  | PDict kvs =>
      if cut then reference_stub PNone
      else process_dict_with (fun y d => convert_to_dict y d max_depth include_children) kvs depth
  | _ => if cut then reference_stub PNone else x
  end.

Definition conv (max_depth : nat) (include_children : bool) (y : pyval) (d : nat) : pyval :=
  convert_to_dict y d max_depth include_children.

Definition _process_list (items : list pyval) (depth max_depth : nat) (ic : bool) : pyval :=
  process_list_with (conv max_depth ic) items depth.
Definition _process_dict (data : list (pystr * pyval)) (depth max_depth : nat) (ic : bool) : pyval :=
  process_dict_with (conv max_depth ic) data depth.
Definition _process_value (v : pyval) (depth max_depth : nat) (ic : bool) : pyval :=
  process_value_with (conv max_depth ic) v depth.

(** ** SpeckleObjectConverter.convert_value *)

Fixpoint convert_value (v : pyval) : pyval :=
  match v with
  | PObj _ od td r =>
      match td with
      | Some (Some data) => PDict data
      | _ => match od with
             | Some d => PDict (keep_public convert_value d)
             | None => PStr r
             end
      end
  | PList xs => PList (map convert_value xs)
  | PDict kvs => PDict (map (fun '(k, y) => (k, convert_value y)) kvs)
  | _ => v
  end.

(** *** [convert_value] over an object graph

    The object graphs the server receives may share nodes and contain
    cycles.  A heap maps each location to the node stored there; a list,
    a dict and an object's [__dict__] hold locations.  The [to_dict()]
    result is returned as it is, so it stays a tree value. *)

Inductive hval : Type :=
| HNone
| HBool (b : bool)
| HInt (z : Z)
| HFloat (r : pystr)
| HStr (s : pystr)
| HList (xs : list nat)
| HDict (kvs : list (pystr * nat))
| HObj (attrs : list (pystr * nat)) (dict : option (list (pystr * nat)))
       (to_dict : option (option (list (pystr * pyval)))) (repr : pystr).

Definition heap := nat -> hval.

(** [None] as soon as one element is [None] *)
Fixpoint all_some {A} (l : list (option A)) : option (list A) :=
  match l with
  | [] => Some []
  | Some x :: r => option_map (cons x) (all_some r)
  | None :: _ => None
  end.

(** the entries of [__dict__] the comprehension keeps *)
Definition public_entries (kvs : list (pystr * nat)) : list (pystr * nat) :=
  filter (fun kv => negb (starts_underscore (fst kv))) kvs.

(** [convert_value] on the node at [l].  [fuel] bounds the nesting of
    calls, as the interpreter's call stack does: [None] means the call has
    not returned within [fuel] nested calls, where CPython raises
    RecursionError once [sys.getrecursionlimit()] frames are in use.  A
    call returns, with an unbounded stack, iff it returns for some
    [fuel]. *)
Fixpoint convert_value_at (fuel : nat) (h : heap) (l : nat) {struct fuel} : option pyval :=
  match fuel with
  | O => None
  | S f =>
      let entries kvs :=
        all_some (map (fun '(k, l') => option_map (fun y => (k, y)) (convert_value_at f h l')) kvs) in
      match h l with
      | HObj _ od td r =>
          match td with
          | Some (Some data) => Some (PDict data)
          | _ => match od with
                 | Some d => option_map PDict (entries (public_entries d))
                 | None => Some (PStr r)
                 end
          end
      | HList xs => option_map PList (all_some (map (convert_value_at f h) xs))
      | HDict kvs => option_map PDict (entries kvs)
      | HNone => Some PNone
      | HBool b => Some (PBool b)
      | HInt z => Some (PInt z)
      | HFloat r => Some (PFloat r)
      | HStr s => Some (PStr s)
      end
  end.

(** the locations [convert_value] recurses into from [l] *)
Definition cv_children (h : heap) (l : nat) : list nat :=
  match h l with
  | HList xs => xs
  | HDict kvs => map snd kvs
  | HObj _ (Some d) td _ =>
      match td with Some (Some _) => [] | _ => map snd (public_entries d) end
  | _ => []
  end.

(** [l = []; l.append(l)] *)
Definition self_list_heap : heap := fun _ => HList [0].

(** a list holding an int and a dict, the dict holding a float and an
    object that has a [__dict__] and no [to_dict] *)
Definition c7_heap : heap := fun l =>
  match l with
  | 0 => HInt 7
  | 1 => HFloat (u "2.5")
  | 2 => HObj [] (Some [(u "_id", 0); (u "name", 0)]) None (u "Base")
  | 3 => HDict [(u "w", 1); (u "o", 2)]
  | 4 => HList [0; 3]
  | _ => HNone
  end.

(** ** Shapes of serializer output *)

Definition is_stub (v : pyval) : bool :=
  match v with
  | PDict [(k1, _); (k2, PStr m)] =>
      str_eqb k1 (u "id") && str_eqb k2 (u "_type") && str_eqb m (u "reference")
  | _ => false
  end.

(** a truncation sentinel: the [_note] entry of a mapping, or the
    [{"_note": ...}] element of a list *)
Definition is_note_entry (k : pystr) (v : pyval) : bool :=
  str_eqb k (u "_note") && match v with PStr _ => true | _ => false end.

Definition is_list_sentinel (v : pyval) : bool :=
  match v with
  | PDict [(k, y)] => is_note_entry k y
  | _ => false
  end.

(** [nodes_within s B lvl v]: every node of [v] (itself at nesting depth
    [lvl]) that is not a Reference Stub (nor, when [s], a truncation
    sentinel) sits at nesting depth at most [B]. *)
Fixpoint nodes_within (s : bool) (B lvl : nat) (v : pyval) {struct v} : bool :=
  is_stub v || (s && is_list_sentinel v) ||
  ((lvl <=? B) &&
   match v with
   | PList xs => forallb (fun y => nodes_within s B (S lvl) y) xs
   | PDict kvs => forallb (fun '(k, y) => (s && is_note_entry k y) || nodes_within s B (S lvl) y) kvs
   | _ => true
   end).

(** the id a Reference Stub of [x] carries *)
Definition stub_id (x : pyval) : pyval :=
  match x with
  | PObj _ _ (Some (Some data)) _ => dict_get (u "id") data
  | PObj attrs _ _ _ => dict_get (u "id") attrs
  | _ => PNone
  end.

(** ** get_property_by_path

    Character classes come from the Unicode database: [u_isdigit c] is
    [c.isdigit()] (Numeric_Type Digit or Decimal) and [u_decimal c] the
    decimal value [int()] reads from [c] (Numeric_Type Decimal only). *)

Record unicode_db := { u_isdigit : N -> bool; u_decimal : N -> option N }.

(** [str.isdigit()]: non-empty and every character a digit. *)
Definition py_isdigit (db : unicode_db) (s : pystr) : bool :=
  match s with
  | [] => false
  | _ => forallb (u_isdigit db) s
  end.

Fixpoint decimal_value (db : unicode_db) (s : pystr) (acc : N) : option N :=
  match s with
  | [] => Some acc
  | c :: r =>
      match u_decimal db c with
      | Some d => decimal_value db r (acc * 10 + d)%N
      | None => None
      end
  end.

(** [sys.get_int_max_str_digits()] default: [int()] of a longer decimal
    string raises ValueError (CPython 3.11, 3.10.7, 3.9.14 and later). *)
Definition int_max_str_digits : nat := 4300.

(** [int(s)] on a string of digit characters; [None] is a ValueError. *)
Definition py_int (db : unicode_db) (s : pystr) : option N :=
  match decimal_value db s 0 with
  | None => None
  | Some n => if int_max_str_digits <? List.length s then None else Some n
  end.

(** [s.split('.')] *)
Fixpoint split_dot_aux (s cur : pystr) : list pystr :=
  match s with
  | [] => [rev cur]
  | c :: r => if N.eqb c 46 then rev cur :: split_dot_aux r [] else split_dot_aux r (c :: cur)
  end.

Definition split_dot (s : pystr) : list pystr := split_dot_aux s [].

Inductive path_error : Type :=
| IndexOutOfRange (index : N) (path_so_far : pystr)
| PropertyNotFound (part : pystr) (path_so_far : pystr).

Inductive nav_result : Type :=
| NavOk (v : pyval)
| NavErr (e : path_error)
| NavRaise.  (* ValueError out of [int(part)] *)

Definition render_error (e : path_error) : pystr :=
  match e with
  | IndexOutOfRange i p => u "Index " ++ show_N i ++ u " out of range at path '" ++ p ++ u "'"
  | PropertyNotFound part p => u "Property '" ++ part ++ u "' not found at path '" ++ p ++ u "'"
  end.

Section Navigator.
Variable db : unicode_db.
(** attributes of the builtin values (list, dict, str, int, bool, None):
    their methods and dunder names *)
Variable builtin_attr : pyval -> pystr -> option pyval.

(** [hasattr]/[getattr] *)
Definition py_getattr (cur : pyval) (name : pystr) : option pyval :=
  match cur with
  | PObj attrs _ _ _ => assoc name attrs
  | _ => builtin_attr cur name
  end.

(** the four non-index branches, in the order the code tries them *)
Definition lookup_member (cur : pyval) (part : pystr) : option pyval :=
  match (match cur with PDict kvs => assoc part kvs | _ => None end) with
  | Some v => Some v
  | None =>
      match py_getattr cur part with
      | Some v => Some v
      | None =>
          match (match cur with PObj _ (Some d) _ _ => assoc part d | _ => None end) with
          | Some v => Some v
          | None => py_getattr cur (64%N :: part)  (* f'@{part}' *)
          end
      end
  end.

(** the loop over [path_parts]; [first] is [i == 0] *)
Fixpoint walk (current : pyval) (path_so_far : pystr) (first : bool) (parts : list pystr)
    : nav_result :=
  match parts with
  | [] => NavOk current
  | part :: rest =>
      let psf := path_so_far ++ (if first then [] else [46%N]) ++ part in
      let by_index :=
        match current with
        | PList xs => if py_isdigit db part then Some (py_int db part, xs) else None
        | _ => None
        end in
      match by_index with
      | Some (None, _) => NavRaise
      | Some (Some index, xs) =>
          (* [if index < len(current)] *)
          match nth_error xs (N.to_nat index) with
          | Some v => walk v psf false rest
          | None => NavErr (IndexOutOfRange index psf)
          end
      | None =>
          match lookup_member current part with
          | Some v => walk v psf false rest
          | None => NavErr (PropertyNotFound part psf)
          end
      end
  end.

Definition resolve (obj : pyval) (path : pystr) : nav_result :=
  walk obj [] true (split_dot path).

(** [(value, error_message)], or [None] when it raises *)
Definition get_property_by_path (obj : pyval) (path : pystr) : option (pyval * option pystr) :=
  match resolve obj path with
  | NavOk v => Some (v, None)
  | NavErr e => Some (PNone, Some (render_error e))
  | NavRaise => None
  end.
End Navigator.

(** The Unicode database restricted to U+0000..U+00FF, where it is exact:
    the decimal digits are U+0030..U+0039 and the other digits the
    superscripts U+00B2, U+00B3, U+00B9; no code point above is listed. *)
Definition latin1_db : unicode_db := {|
  u_isdigit := fun c => ((48 <=? c) && (c <=? 57))%N || N.eqb c 178 || N.eqb c 179 || N.eqb c 185;
  u_decimal := fun c => if ((48 <=? c) && (c <=? 57))%N then Some (c - 48)%N else None |}.

(** What a Unicode database says on ASCII, which every version agrees on. *)
Definition ascii_exact (db : unicode_db) : Prop :=
  forall c, (c < 128)%N ->
    u_isdigit db c = ((48 <=? c) && (c <=? 57))%N /\
    u_decimal db c = (if ((48 <=? c) && (c <=? 57))%N then Some (c - 48)%N else None).

(** ** handle_exceptions *)

(** A raised exception: whether its class derives from [Exception] (not
    only [BaseException]), and what [str(e)] does. *)
Inductive exn : Type :=
| Exn (is_Exception : bool) (str_of : str_result)
with str_result : Type :=
| StrOk (s : pystr)
| StrRaises (e : exn).

Inductive outcome (A : Type) : Type :=
| Ret (a : A)
| Raise (e : exn).
Arguments Ret {A} a.
Arguments Raise {A} e.

Definition error_tail : pystr := [10; 10]%N ++ u "For detailed logs, check the server output.".

(** the [try]/[except Exception] of [wrapper] around an awaited tool
    call.  The [logger.info] call before it formats the arguments, which
    raises only for an int past the 4300-digit limit; [handled] below
    models that step too. *)
Definition handle_exceptions (call : outcome pystr) : outcome pystr :=
  match call with
  | Ret s => Ret s
  | Raise e =>
      match e with
      | Exn true (StrOk m) => Ret (u "Error: " ++ m ++ error_tail)
      | Exn true (StrRaises e') => Raise e'   (* str(e) raised inside the handler *)
      | Exn false _ => Raise e                (* not caught by [except Exception] *)
      end
  end.

(** [asyncio.CancelledError()] (a BaseException since Python 3.8) *)
Definition cancelled_error : exn := Exn false (StrOk []).

(** ** Calling a tool function with positional arguments *)

Record pysig := { fn_name : pystr; params : list pystr; defaults : list pyval }.

Definition type_error (msg : pystr) : exn := Exn true (StrOk msg).

Fixpoint quote_names (ns : list pystr) : pystr :=
  match ns with
  | [] => []
  | [a] => u "'" ++ a ++ u "'"
  | [a; b] => u "'" ++ a ++ u "' and '" ++ b ++ u "'"
  | a :: r => u "'" ++ a ++ u "', " ++ quote_names r
  end.

(** CPython's [too_many_positional] message *)
Definition too_many_msg (sg : pysig) (given : nat) : pystr :=
  let argc := List.length (params sg) in
  let defc := List.length (defaults sg) in
  fn_name sg ++ u "() takes "
    ++ (if 0 <? defc then u "from " ++ show_nat (argc - defc) ++ u " to " ++ show_nat argc
        else show_nat argc)
    ++ u " positional argument" ++ (if (0 <? defc) || negb (argc =? 1) then u "s" else [])
    ++ u " but " ++ show_nat given ++ (if given =? 1 then u " was" else u " were") ++ u " given".

(** CPython's [missing_arguments] message *)
Definition missing_msg (sg : pysig) (missing : list pystr) : pystr :=
  fn_name sg ++ u "() missing " ++ show_nat (List.length missing)
    ++ u " required positional argument" ++ (if List.length missing =? 1 then [] else u "s")
    ++ u ": " ++ quote_names missing.

(** [f( *args)]: bind the arguments, fill the defaults, run the body *)
Definition py_call (sg : pysig) (body : list pyval -> outcome pystr) (args : list pyval)
    : outcome pystr :=
  let n := List.length args in
  let argc := List.length (params sg) in
  let required := argc - List.length (defaults sg) in
  if argc <? n then Raise (type_error (too_many_msg sg n))
  else if n <? required then Raise (type_error (missing_msg sg (firstn (required - n) (skipn n (params sg)))))
  else body (args ++ skipn (n - required) (defaults sg)).

(** a tool as the agent protocol and the HTTP mirror see it:
    [@handle_exceptions] over the function, for arguments whose formatting
    by the wrapper's [logger.info] succeeds (no int past the 4300-digit
    limit; pydantic keeps the HTTP routes' ints far below it) *)
Definition tool (sg : pysig) (body : list pyval -> outcome pystr) (args : list pyval) : outcome pystr :=
  handle_exceptions (py_call sg body args).

Definition list_projects_sig : pysig :=
  {| fn_name := u "list_projects"; params := [u "limit"]; defaults := [PInt 20] |}.
Definition get_project_details_sig : pysig :=
  {| fn_name := u "get_project_details"; params := [u "project_id"; u "limit"]; defaults := [PInt 20] |}.
Definition search_projects_sig : pysig :=
  {| fn_name := u "search_projects"; params := [u "query"]; defaults := [] |}.
Definition get_model_versions_sig : pysig :=
  {| fn_name := u "get_model_versions"; params := [u "project_id"; u "model_id"; u "limit"];
     defaults := [PInt 20] |}.
Definition get_version_objects_sig : pysig :=
  {| fn_name := u "get_version_objects"; params := [u "project_id"; u "version_id"; u "include_children"];
     defaults := [PBool false] |}.
Definition query_object_properties_sig : pysig :=
  {| fn_name := u "query_object_properties"; params := [u "project_id"; u "version_id"; u "property_path"];
     defaults := [] |}.

(** ** http_wrapper.py *)

Inductive response : Type :=
| JSONResponse (data : pyval)
| PlainTextResponse (text : pystr)
| InternalServerError (e : exn).  (* an exception out of the handler *)

Section Http.
(** [json.loads]: [None] when it raises *)
Variable json_loads : pystr -> option pyval.

Definition maybe_json (result : pystr) : response :=
  match json_loads result with
  | Some data => JSONResponse data
  | None => PlainTextResponse result
  end.

Definition respond (r : outcome pystr) : response :=
  match r with
  | Ret s => maybe_json s
  | Raise e => InternalServerError e
  end.

Definition http_list_projects body (limit : Z) (cursor : pyval) : response :=
  respond (tool list_projects_sig body [PInt limit; cursor]).
Definition http_get_project_details body (project_id : pystr) (limit : Z) : response :=
  respond (tool get_project_details_sig body [PStr project_id; PInt limit]).
Definition http_search_projects body (query : pystr) (cursor : pyval) : response :=
  respond (tool search_projects_sig body [PStr query; cursor]).
Definition http_get_model_versions body (project_id model_id : pystr) (limit : Z) (cursor : pyval)
    : response :=
  respond (tool get_model_versions_sig body [PStr project_id; PStr model_id; PInt limit; cursor]).
Definition http_get_version_objects body (project_id version_id : pystr) (include_children : bool)
    (cursor : pyval) : response :=
  respond (tool get_version_objects_sig body
             [PStr project_id; PStr version_id; PBool include_children; cursor]).
Definition http_query_object_properties body (project_id version_id property_path : pystr)
    : response :=
  respond (tool query_object_properties_sig body
             [PStr project_id; PStr version_id; PStr property_path]).
End Http.

(** JSON whitespace *)
Fixpoint drop_blank (s : pystr) : pystr :=
  match s with
  | c :: r => if existsb (N.eqb c) [32; 9; 10; 13]%N then drop_blank r else s
  | [] => []
  end.

(** The characters a JSON document can start with (after whitespace):
    an opening brace or bracket, a double quote, a minus sign, a digit, [t f n] and Python's [NaN] / [Infinity];
    [json.loads] raises on any other text. *)
Definition json_start (s : pystr) : bool :=
  match drop_blank s with
  | c :: _ => existsb (N.eqb c) ([123; 91; 34; 45; 116; 102; 110; 78; 73]%N ++ u "0123456789")
  | [] => false
  end.

(** ** Concrete inputs *)

(** an object whose list attribute holds a structured object *)
Definition c1_graph : pyval :=
  PObj [] (Some [(u "a", PList [PObj [] (Some [(u "b", PInt 1)]) None (u "inner")])]) None (u "outer").

(** a mapping of six entries, the first keyed [_note] *)
Definition c2_data : list (pystr * pyval) :=
  [(u "_note", PInt 0); (u "a", PInt 1); (u "b", PInt 2); (u "c", PInt 3); (u "d", PInt 4); (u "e", PInt 5)].

(** a plain mapping with an underscore-prefixed key *)
Definition c9_data : list (pystr * pyval) := [(u "_x", PInt 7); (u "a", PInt 1)].

(** an object with an [id] attribute whose [to_dict()] has no [id] entry *)
Definition c6_obj : pyval :=
  PObj [(u "id", PStr (u "abc")); (u "name", PStr (u "w"))]
       (Some [(u "id", PStr (u "abc")); (u "name", PStr (u "w"))])
       (Some (Some [(u "name", PStr (u "w"))])) (u "w").

(** objects whose [elements] attribute is a list *)
Definition with_elements (xs : list pyval) : pyval :=
  PObj [(u "elements", PList xs)] (Some [(u "elements", PList xs)]) None (u "Base").

(** the path [elements.] followed by U+00B2 SUPERSCRIPT TWO, and an index segment of 4301 decimal digits *)
Definition superscript_two_path : pystr := u "elements." ++ [178%N].
Definition long_index : pystr := repeat 49%N 4301.
Definition long_index_path : pystr := u "elements." ++ long_index.

(** an object with an attribute named [@] and none named by the empty string *)
Definition c10_root : pyval := PObj [(u "@", PInt 1)] (Some [(u "@", PInt 1)]) None (u "o").

Definition no_builtin_attr : pyval -> pystr -> option pyval := fun _ _ => None.

(** a [list_projects] body: the account has no project *)
Definition no_projects_body : list pyval -> outcome pystr :=
  fun _ => Ret (u "No projects found for the configured Speckle account.").

(** a [list_projects] body whose client call fails with a ValueError *)
Definition no_token_body : list pyval -> outcome pystr :=
  fun _ => Raise (Exn true (StrOk (u "Speckle token not configured.")))
.

Definition wall : pyval :=
  PObj [(u "name", PStr (u "Wall")); (u "elements", PList (map PInt [1;2;3;4;5;6;7]%Z))]
       (Some [(u "name", PStr (u "Wall")); (u "elements", PList (map PInt [1;2;3;4;5;6;7]%Z))])
       None (u "Wall").

Example wall_serialized :
  convert_to_dict wall 0 2 false =
  PDict [(u "name", PStr (u "Wall"));
         (u "elements", PList (map PInt [1;2;3;4;5]%Z ++ [PDict [(u "_note", PStr (u "...2 more items"))]]))].
Proof. reflexivity. Qed.

(** ** truncate_collection *)

(** [l[:k]] for an integer [k] (a negative [k] counts from the end) *)
Definition py_slice_to {A} (l : list A) (k : Z) : list A :=
  firstn (Z.to_nat (if (k <? 0)%Z then (Z.of_nat (List.length l) + k)%Z else k)) l.

(** [f"...{n} more items"] for an int [n] (positive here) *)
Definition note_msg_Z (n : Z) : pystr := u "..." ++ show_N (Z.to_N n) ++ u " more items".

Definition truncate_collection (collection : pyval) (limit : Z) : pyval :=
  match collection with
  | PList xs =>
      if (Z.of_nat (List.length xs) <=? limit)%Z then collection
      else PList (py_slice_to xs limit
                  ++ [PDict [(u "_note", PStr (note_msg_Z (Z.of_nat (List.length xs) - limit)))]])
  | PDict kvs =>
      if (Z.of_nat (List.length kvs) <=? limit)%Z then collection
      else PDict (dict_set (py_slice_to kvs limit) (u "_note")
                    (PStr (note_msg_Z (Z.of_nat (List.length kvs) - limit))))
  | _ => collection
  end.

(** ** format_datetime *)

(** a [datetime]; the fields are within their ranges (month 1..12,
    day 1..31, hour 0..23, minute and second 0..59) *)
Record datetime := {
  dt_year : N; dt_month : N; dt_day : N; dt_hour : N; dt_minute : N; dt_second : N }.

(** [%02d]-style fixed-width decimal: the last [k] digits of [n] *)
Fixpoint pad_dec (k : nat) (n : N) : pystr :=
  match k with
  | O => []
  | S k' => pad_dec k' (n / 10) ++ [48 + n mod 10]%N
  end.

(** [dt.strftime(...)]; [fmt_Y] is the platform's [%Y] (years 1000 to 9999
    have four digits everywhere; smaller years are padded or not depending
    on the C library). *)
Definition format_datetime (fmt_Y : N -> pystr) (dt : datetime) (include_time : bool) : pystr :=
  if include_time
  then fmt_Y (dt_year dt) ++ u "-" ++ pad_dec 2 (dt_month dt) ++ u "-" ++ pad_dec 2 (dt_day dt)
       ++ u " " ++ pad_dec 2 (dt_hour dt) ++ u ":" ++ pad_dec 2 (dt_minute dt) ++ u ":" ++ pad_dec 2 (dt_second dt)
  else fmt_Y (dt_year dt) ++ u "-" ++ pad_dec 2 (dt_month dt) ++ u "-" ++ pad_dec 2 (dt_day dt).

Definition dt_valid (dt : datetime) : Prop :=
  (1 <= dt_year dt <= 9999 /\ 1 <= dt_month dt <= 12 /\ 1 <= dt_day dt <= 31 /\
   dt_hour dt <= 23 /\ dt_minute dt <= 59 /\ dt_second dt <= 59)%N.

(** Python's [str] ordering: lexicographic on code points *)
Fixpoint str_compare (a b : pystr) : comparison :=
  match a, b with
  | [], [] => Eq
  | [], _ => Lt
  | _, [] => Gt
  | x :: a', y :: b' => match N.compare x y with Eq => str_compare a' b' | c => c end
  end.

(** chronological order of two datetimes (to the second) *)
Definition chrono_compare (a b : datetime) : comparison :=
  match N.compare (dt_year a) (dt_year b) with
  | Eq => match N.compare (dt_month a) (dt_month b) with
          | Eq => match N.compare (dt_day a) (dt_day b) with
                  | Eq => match N.compare (dt_hour a) (dt_hour b) with
                          | Eq => match N.compare (dt_minute a) (dt_minute b) with
                                  | Eq => N.compare (dt_second a) (dt_second b)
                                  | c => c end
                          | c => c end
                  | c => c end
          | c => c end
  | c => c end.

(** ** json.dumps(..., indent=2) *)

(** [s.join(l)] *)
Fixpoint join_with (sep : pystr) (l : list pystr) : pystr :=
  match l with
  | [] => []
  | [x] => x
  | x :: r => x ++ sep ++ join_with sep r
  end.

(** the [Exception] classes the code can meet: ValueError and TypeError *)
Definition value_error (msg : pystr) : exn := Exn true (StrOk msg).

(** [int.__repr__]: more than [sys.get_int_max_str_digits()] digits raise *)
Definition int_str_error : exn :=
  value_error (u "Exceeds the limit (4300 digits) for integer string conversion; use sys.set_int_max_str_digits() to increase the limit").

Definition show_Z (z : Z) : pystr := (if (z <? 0)%Z then [45%N] else []) ++ show_N (Z.abs_N z).

Definition int_ok (z : Z) : bool := List.length (show_N (Z.abs_N z)) <=? int_max_str_digits.

Definition int_repr (z : Z) : outcome pystr :=
  if int_ok z then Ret (show_Z z) else Raise int_str_error.

Definition hex_digit (d : N) : N := if (d <? 10)%N then (48 + d)%N else (87 + d)%N.

Fixpoint pad_hex (k : nat) (n : N) : pystr :=
  match k with
  | O => []
  | S k' => pad_hex k' (n / 16) ++ [hex_digit (n mod 16)]
  end.

(** ['\\u{0:04x}'.format(n)] *)
Definition u_escape (n : N) : pystr := 92%N :: 117%N :: pad_hex 4 n.

(** one character through [encode_basestring_ascii] *)
Definition escape_char (c : N) : pystr :=
  if (c =? 92)%N then [92; 92]%N
  else if (c =? 34)%N then [92; 34]%N
  else if (c =? 8)%N then [92; 98]%N
  else if (c =? 12)%N then [92; 102]%N
  else if (c =? 10)%N then [92; 110]%N
  else if (c =? 13)%N then [92; 114]%N
  else if (c =? 9)%N then [92; 116]%N
  else if ((32 <=? c) && (c <=? 126))%N then [c]
  else if (c <? 65536)%N then u_escape c
  else let v := (c - 65536)%N in
       u_escape (N.lor 55296 (N.land (N.shiftr v 10) 1023))
       ++ u_escape (N.lor 56320 (N.land v 1023)).

Definition encode_basestring_ascii (s : pystr) : pystr :=
  [34%N] ++ flat_map escape_char s ++ [34%N].

(** run [f] over [l] in order; the first exception stops the generator *)
Fixpoint seq_out {A B} (f : A -> outcome B) (l : list A) : outcome (list B) :=
  match l with
  | [] => Ret []
  | x :: r =>
      match f x with
      | Raise e => Raise e
      | Ret b => match seq_out f r with Raise e => Raise e | Ret bs => Ret (b :: bs) end
      end
  end.

Definition newline_indent (level : nat) : pystr := 10%N :: repeat 32%N (2 * level).

(** [floatstr] with [allow_nan=True], on the float whose [repr()] is [r] *)
Definition floatstr (r : pystr) : pystr :=
  if str_eqb r (u "nan") then u "NaN"
  else if str_eqb r (u "inf") then u "Infinity"
  else if str_eqb r (u "-inf") then u "-Infinity"
  else r.

Section Json.
(** [o.__class__.__name__] *)
Variable class_name : pyval -> pystr.

(** [_make_iterencode] with [indent=2], [ensure_ascii=True] and the
    default separators; [_current_indent_level] is [level] *)
Fixpoint iterencode (level : nat) (o : pyval) {struct o} : outcome pystr :=
  match o with
  | PNone => Ret (u "null")
  | PBool b => Ret (if b then u "true" else u "false")
  | PInt z => int_repr z
  | PFloat r => Ret (floatstr r)
  | PStr s => Ret (encode_basestring_ascii s)
  | PList [] => Ret (u "[]")
  | PList xs =>
      match seq_out (fun y => iterencode (S level) y) xs with
      | Raise e => Raise e
      | Ret items =>
          Ret (u "[" ++ newline_indent (S level)
               ++ join_with (u "," ++ newline_indent (S level)) items
               ++ newline_indent level ++ u "]")
      end
  | PDict [] => Ret (u "{}")
  | PDict kvs =>
      match seq_out (fun '(k, y) =>
                       match iterencode (S level) y with
                       | Raise e => Raise e
                       | Ret t => Ret (encode_basestring_ascii k ++ u ": " ++ t)
                       end) kvs with
      | Raise e => Raise e
      | Ret items =>
          Ret (u "{" ++ newline_indent (S level)
               ++ join_with (u "," ++ newline_indent (S level)) items
               ++ newline_indent level ++ u "}")
      end
  | PObj _ _ _ _ =>
      Raise (value_error (u "Object of type " ++ class_name o ++ u " is not JSON serializable"))
  end.

Definition json_dumps (o : pyval) : outcome pystr := iterencode 0 o.
End Json.

(** ** The routes of the HTTP mirror *)

Inductive endpoint : Type :=
| EpOpenapiJson | EpSwaggerDocs | EpSwaggerRedirect | EpRedoc
| EpOpenapiYaml | EpPluginManifest
| EpListProjects | EpGetProjectDetails | EpSearchProjects
| EpGetModelVersions | EpGetVersionObjects | EpQueryObjectProperties.

Inductive segment : Type :=
| Lit (s : pystr)
| Param (name : pystr).

(** [path.split('/')] *)
Fixpoint split_slash_aux (s cur : pystr) : list pystr :=
  match s with
  | [] => [rev cur]
  | c :: r => if N.eqb c 47 then rev cur :: split_slash_aux r [] else split_slash_aux r (c :: cur)
  end.

Definition split_slash (s : pystr) : list pystr := split_slash_aux s [].

(** a route path as Starlette compiles it: [{name}] is [(?P<name>[^/]+)] *)
Definition route_path (p : string) : list segment :=
  map (fun s => match s with
                | 123%N :: r => Param (removelast r)
                | _ => Lit s
                end) (split_slash (u p)).

(** the GET routes in registration order: FastAPI's own documentation
    routes (added by [FastAPI.setup()] in the constructor), then the
    module's decorators in source order *)
Definition routes : list (list segment * endpoint) :=
  [(route_path "/openapi.json", EpOpenapiJson);
   (route_path "/docs", EpSwaggerDocs);
   (route_path "/docs/oauth2-redirect", EpSwaggerRedirect);
   (route_path "/redoc", EpRedoc);
   (route_path "/openapi.yaml", EpOpenapiYaml);
   (route_path "/.well-known/ai-plugin.json", EpPluginManifest);
   (route_path "/projects", EpListProjects);
   (route_path "/projects/{project_id}", EpGetProjectDetails);
   (route_path "/projects/search", EpSearchProjects);
   (route_path "/projects/{project_id}/models/{model_id}/versions", EpGetModelVersions);
   (route_path "/projects/{project_id}/versions/{version_id}/objects", EpGetVersionObjects);
   (route_path "/projects/{project_id}/versions/{version_id}/query", EpQueryObjectProperties)].

Fixpoint match_segments (pat : list segment) (parts : list pystr) : option (list (pystr * pystr)) :=
  match pat, parts with
  | [], [] => Some []
  | Lit l :: pat', p :: parts' => if str_eqb l p then match_segments pat' parts' else None
  | Param n :: pat', p :: parts' =>
      match p with
      | [] => None
      | _ => match match_segments pat' parts' with
             | Some ps => Some ((n, p) :: ps)
             | None => None
             end
      end
  | _, _ => None
  end.

(** Starlette's router: the first route whose path matches handles a GET *)
Fixpoint dispatch_in (rs : list (list segment * endpoint)) (path : pystr)
    : option (endpoint * list (pystr * pystr)) :=
  match rs with
  | [] => None
  | (pat, ep) :: rs' =>
      match match_segments pat (split_slash path) with
      | Some ps => Some (ep, ps)
      | None => dispatch_in rs' path
      end
  end.

Definition dispatch (path : pystr) : option (endpoint * list (pystr * pystr)) :=
  dispatch_in routes path.

(** ** The Speckle client and the tools *)

Record project := {
  pr_id : pystr; pr_name : pystr;
  pr_description : pystr;          (* [None] or empty: falsy *)
  pr_visibility : pystr;           (* [project.visibility.value] *)
  pr_created_at : datetime; pr_updated_at : datetime;
  pr_source_apps : list pystr }.

Record model_item := { mi_name : pystr; mi_id : pystr }.
Record models_page := { mp_total_count : Z; mp_items : list model_item }.
Record user := { us_name : pystr; us_id : pystr }.

Record version := {
  v_id : pystr;
  v_message : pystr;               (* [None] or empty: falsy *)
  v_source_application : pystr;    (* [None] or empty: falsy *)
  v_created_at : datetime;
  v_referenced_object : pystr;
  v_author_user : option user }.

(** the two calls of [client.active_user.get_projects] *)
Inductive projects_query : Type :=
| ProjectsLimit (limit : Z)              (* [get_projects(limit=limit)] *)
| ProjectsSearch (search : pystr).       (* [get_projects(filter=UserProjectsFilter(search=query))] *)

(** What the module uses from outside: the environment, specklepy and the
    Python runtime.  A collection whose [items] are [None] behaves as an
    empty one, and is given as [Some []]. *)
Record speckle_env (C : Type) := {
  speckle_token : pystr;
  new_client : nat -> outcome C;   (* [SpeckleClient(host=speckle_server_url)], the n-th time *)
  authenticate_with_token : C -> pystr -> outcome unit;
  get_projects : C -> projects_query -> outcome (option (list project));
  project_get : C -> pystr -> outcome (option project);
  get_with_models : C -> pystr -> Z -> outcome (option models_page);
  get_with_team : C -> pystr -> outcome (list user);
  get_versions : C -> pystr -> pystr -> Z -> outcome (option (list version));
  version_get : C -> pystr -> pystr -> outcome (option version);
  receive : C -> pystr -> pystr -> outcome pyval;   (* [operations.receive(object_id, ServerTransport(project_id, client))] *)
  py_lower : pystr -> pystr;                        (* [str.lower] *)
  fmt_Y : N -> pystr;                               (* [%Y] *)
  isoformat : datetime -> pystr;
  class_name : pyval -> pystr;
  nav_db : unicode_db;
  nav_builtin_attr : pyval -> pystr -> option pyval;
  int_error_msg : pystr                             (* [str()] of the ValueError of [int(part)] *)
}.

Arguments speckle_token {C} _.
Arguments new_client {C} _ _.
Arguments authenticate_with_token {C} _ _ _.
Arguments get_projects {C} _ _ _.
Arguments project_get {C} _ _ _.
Arguments get_with_models {C} _ _ _ _.
Arguments get_with_team {C} _ _ _.
Arguments get_versions {C} _ _ _ _ _.
Arguments version_get {C} _ _ _ _.
Arguments receive {C} _ _ _ _.
Arguments py_lower {C} _ _.
Arguments fmt_Y {C} _ _.
Arguments isoformat {C} _ _.
Arguments class_name {C} _ _.
Arguments nav_db {C} _.
Arguments nav_builtin_attr {C} _ _ _.
Arguments int_error_msg {C} _.

(** [SpeckleClientSingleton._instance], and how many clients were
    constructed so far *)
Record client_state (C : Type) := { instance : option C; created : nat }.
Arguments instance {C} _.
Arguments created {C} _.
Arguments Build_client_state {C} _ _.

Definition M (C A : Type) : Type := client_state C -> outcome A * client_state C.

Definition ret {C A} (a : A) : M C A := fun s => (Ret a, s).
Definition lift {C A} (o : outcome A) : M C A := fun s => (o, s).
Definition bind {C A B} (m : M C A) (f : A -> M C B) : M C B :=
  fun s => match m s with
           | (Ret a, s') => f a s'
           | (Raise e, s') => (Raise e, s')
           end.

Notation "x <- m ;; k" := (bind m (fun x => k)) (at level 61, m at next level, right associativity).

Definition token_msg : pystr :=
  u "Speckle token not configured. Please set the SPECKLE_TOKEN environment variable.".

(** [needle in hay] *)
Fixpoint is_prefix (p s : pystr) : bool :=
  match p, s with
  | [], _ => true
  | x :: p', y :: s' => N.eqb x y && is_prefix p' s'
  | _, [] => false
  end.

Fixpoint contains (needle hay : pystr) : bool :=
  is_prefix needle hay || match hay with [] => false | _ :: r => contains needle r end.

(** [str.lower] on ASCII text *)
Definition ascii_lower (s : pystr) : pystr :=
  map (fun c => if ((65 <=? c) && (c <=? 90))%N then (c + 32)%N else c) s.

Definition is_ascii (s : pystr) : bool := forallb (fun c => (c <? 128)%N) s.

Definition projects_sep : pystr := [10; 10; 45; 45; 45; 10; 10]%N.

Section Tools.
Variable C : Type.
Variable E : speckle_env C.

(** [_create_instance], returning the client it stores *)
Definition _create_instance : M C C := fun s =>
  let s1 := Build_client_state (instance s) (S (created s)) in
  match new_client E (created s) with
  | Raise e => (Raise e, s1)
  | Ret client =>
      match speckle_token E with
      | [] => (Raise (value_error token_msg), s1)
      | _ =>
          match authenticate_with_token E client (speckle_token E) with
          | Raise e => (Raise e, s1)
          | Ret _ => (Ret client, Build_client_state (Some client) (S (created s)))
          end
      end
  end.

Definition get_instance : M C C := fun s =>
  match instance s with
  | Some c => (Ret c, s)
  | None => _create_instance s
  end.

Definition refresh_instance : M C C := _create_instance.

Definition retry_worthy (m : pystr) : bool :=
  contains (u "authentication") (py_lower E m) || contains (u "token") (py_lower E m).

Definition get_speckle_client : M C C := fun s =>
  match get_instance s with
  | (Ret c, s') => (Ret c, s')
  | (Raise e, s') =>
      match e with
      | Exn true (StrOk m) => if retry_worthy m then refresh_instance s' else (Raise e, s')
      | Exn true (StrRaises e') => (Raise e', s')   (* [str(e)] raised in the handler *)
      | Exn false _ => (Raise e, s')                 (* not an [Exception] *)
      end
  end.

(** [@handle_exceptions]: the wrapper first logs [repr] of the arguments,
    which raises for an int argument past the digit limit ([ints_ok] is
    false); then it runs the tool and catches [Exception] *)
Definition handled (ints_ok : bool) (m : M C pystr) : M C pystr := fun s =>
  if ints_ok then
    match m s with (r, s') => (handle_exceptions r, s') end
  else (handle_exceptions (Raise int_str_error), s).

Definition project_summary (p : project) : list pystr :=
  [u "ID: " ++ pr_id p; u "Name: " ++ pr_name p]
  ++ (match pr_description p with [] => [] | d => [u "Description: " ++ d] end).

Definition list_projects_body (limit : Z) : M C pystr :=
  client <- get_speckle_client ;;
  pc <- lift (get_projects E client (ProjectsLimit limit)) ;;
  match pc with
  | None | Some [] => ret (u "No projects found for the configured Speckle account.")
  | Some ps =>
      ret (u "Found " ++ show_nat (List.length ps) ++ u " projects:" ++ [10; 10]%N
           ++ join_with projects_sep
                (map (fun p => join_with [10%N]
                     (project_summary p
                      ++ [u "Visibility: " ++ pr_visibility p;
                          u "Created: " ++ format_datetime (fmt_Y E) (pr_created_at p) false;
                          u "Last Updated: " ++ format_datetime (fmt_Y E) (pr_updated_at p) false])) ps))
  end.

Definition get_project_details_body (project_id : pystr) (limit : Z) : M C pystr :=
  client <- get_speckle_client ;;
  project <- lift (project_get E client project_id) ;;
  match project with
  | None => ret (u "No project found with ID: " ++ project_id)
  | Some p =>
      project_with_models <- lift (get_with_models E client project_id limit) ;;
      let models_count := match project_with_models with Some m => mp_total_count m | None => 0%Z end in
      team <- lift (get_with_team E client project_id) ;;
      models_count_str <- lift (int_repr models_count) ;;
      ret (join_with [10%N]
        ([u "Project: " ++ pr_name p; u "ID: " ++ pr_id p]
         ++ (match pr_description p with [] => [] | d => [u "Description: " ++ d] end)
         ++ [u "Visibility: " ++ pr_visibility p;
             u "Created: " ++ format_datetime (fmt_Y E) (pr_created_at p) false;
             u "Last Updated: " ++ format_datetime (fmt_Y E) (pr_updated_at p) false;
             u "Models: " ++ models_count_str;
             u "Team Members: " ++ show_nat (List.length team)]
         ++ (match pr_source_apps p with
             | [] => []
             | apps => [u "Source Applications: " ++ join_with (u ", ") apps]
             end)
         ++ (if (0 <? models_count)%Z
             then (10%N :: u "Models:")
                  :: map (fun m => u "- " ++ mi_name m ++ u " (ID: " ++ mi_id m ++ u ")")
                         (match project_with_models with Some m => mp_items m | None => [] end)
             else [])))
  end.

Definition search_projects_body (query : pystr) : M C pystr :=
  client <- get_speckle_client ;;
  pc <- lift (get_projects E client (ProjectsSearch query)) ;;
  match pc with
  | None | Some [] => ret (u "No projects found matching the search term: '" ++ query ++ u "'")
  | Some ps =>
      ret (u "Found " ++ show_nat (List.length ps) ++ u " projects matching '" ++ query ++ u "':"
           ++ [10; 10]%N
           ++ join_with projects_sep
                (map (fun p => join_with [10%N]
                     (project_summary p ++ [u "Visibility: " ++ pr_visibility p])) ps))
  end.

Definition version_summary (v : version) : pystr :=
  join_with [10%N]
    ([u "Version ID: " ++ v_id v;
      u "Message: " ++ (match v_message v with [] => u "No message" | m => m end);
      u "Source Application: " ++ (match v_source_application v with [] => u "Unknown" | a => a end);
      u "Created: " ++ format_datetime (fmt_Y E) (v_created_at v) true;
      u "Referenced Object ID: " ++ v_referenced_object v]
     ++ (match v_author_user v with
         | Some a => [u "Author: " ++ us_name a ++ u " (" ++ us_id a ++ u ")"]
         | None => []
         end)).

Definition get_model_versions_body (project_id model_id : pystr) (limit : Z) : M C pystr :=
  client <- get_speckle_client ;;
  versions <- lift (get_versions E client model_id project_id limit) ;;
  match versions with
  | None | Some [] =>
      ret (u "No versions found for model " ++ model_id ++ u " in project " ++ project_id ++ u ".")
  | Some vs =>
      ret (u "Found " ++ show_nat (List.length vs) ++ u " versions for model " ++ model_id ++ u ":"
           ++ [10; 10]%N ++ join_with projects_sep (map version_summary vs))
  end.

Definition version_not_found (project_id version_id : pystr) : pystr :=
  u "Version " ++ version_id ++ u " not found in project " ++ project_id ++ u ".".

Definition get_version_objects_body (project_id version_id : pystr) (include_children : bool)
    : M C pystr :=
  client <- get_speckle_client ;;
  ver <- lift (version_get E client version_id project_id) ;;
  match ver with
  | None => ret (version_not_found project_id version_id)
  | Some v =>
      speckle_object <- lift (receive E client project_id (v_referenced_object v)) ;;
      let obj_dict := convert_to_dict speckle_object 0 2 include_children in
      lift (json_dumps (class_name E)
              (PDict [(u "version_id", PStr version_id);
                      (u "object_id", PStr (v_referenced_object v));
                      (u "created_at", PStr (isoformat E (v_created_at v)));
                      (u "data", obj_dict)]))
  end.

Definition query_object_properties_body (project_id version_id property_path : pystr) : M C pystr :=
  client <- get_speckle_client ;;
  ver <- lift (version_get E client version_id project_id) ;;
  match ver with
  | None => ret (version_not_found project_id version_id)
  | Some v =>
      speckle_object <- lift (receive E client project_id (v_referenced_object v)) ;;
      match get_property_by_path (nav_db E) (nav_builtin_attr E) speckle_object property_path with
      | None => lift (Raise (value_error (int_error_msg E)))
      | Some (property_value, error) =>
          match error with
          | Some ((_ :: _) as msg) => ret (u "Error: " ++ msg)
          | _ =>
              lift (json_dumps (class_name E)
                      (PDict [(u "property_path", PStr property_path);
                              (u "value", convert_value property_value)]))
          end
      end
  end.

(** the six tools, as [@handle_exceptions] wraps them *)
Definition list_projects (limit : Z) : M C pystr :=
  handled (int_ok limit) (list_projects_body limit).
Definition get_project_details (project_id : pystr) (limit : Z) : M C pystr :=
  handled (int_ok limit) (get_project_details_body project_id limit).
Definition search_projects (query : pystr) : M C pystr :=
  handled true (search_projects_body query).
Definition get_model_versions (project_id model_id : pystr) (limit : Z) : M C pystr :=
  handled (int_ok limit) (get_model_versions_body project_id model_id limit).
Definition get_version_objects (project_id version_id : pystr) (include_children : bool) : M C pystr :=
  handled true (get_version_objects_body project_id version_id include_children).
Definition query_object_properties (project_id version_id property_path : pystr) : M C pystr :=
  handled true (query_object_properties_body project_id version_id property_path).
End Tools.

Arguments _create_instance {C} E _.
Arguments get_instance {C} E _.
Arguments refresh_instance {C} E _.
Arguments retry_worthy {C} E _.
Arguments get_speckle_client {C} E _.
Arguments handled {C} _ _ _.

(** a call of one of the tools *)
Inductive tool_call : Type :=
| CallListProjects (limit : Z)
| CallGetProjectDetails (project_id : pystr) (limit : Z)
| CallSearchProjects (query : pystr)
| CallGetModelVersions (project_id model_id : pystr) (limit : Z)
| CallGetVersionObjects (project_id version_id : pystr) (include_children : bool)
| CallQueryObjectProperties (project_id version_id property_path : pystr).

Definition run_tool {C} (E : speckle_env C) (call : tool_call) : M C pystr :=
  match call with
  | CallListProjects l => list_projects C E l
  | CallGetProjectDetails p l => get_project_details C E p l
  | CallSearchProjects q => search_projects C E q
  | CallGetModelVersions p m l => get_model_versions C E p m l
  | CallGetVersionObjects p v ic => get_version_objects C E p v ic
  | CallQueryObjectProperties p v path => query_object_properties C E p v path
  end.

(** the int arguments of a call are within the digit limit *)
Definition call_ints_ok (call : tool_call) : bool :=
  match call with
  | CallListProjects l | CallGetProjectDetails _ l | CallGetModelVersions _ _ l => int_ok l
  | _ => true
  end.

(** ** Concrete inputs of the tools *)

Definition dt_2024_03_07 : datetime :=
  {| dt_year := 2024; dt_month := 3; dt_day := 7; dt_hour := 9; dt_minute := 5; dt_second := 0 |}.
Definition dt_2024_11_02 : datetime :=
  {| dt_year := 2024; dt_month := 11; dt_day := 2; dt_hour := 8; dt_minute := 0; dt_second := 0 |}.

Definition demo_version : version :=
  {| v_id := u "v1"; v_message := []; v_source_application := u "Revit";
     v_created_at := dt_2024_03_07; v_referenced_object := u "obj1"; v_author_user := None |}.

(** an environment whose clients all work, with the given token, one
    version [v1] in every project, referencing [wall] *)
Definition demo_env (token : pystr) : speckle_env unit := {|
  speckle_token := token;
  new_client := fun _ => Ret tt;
  authenticate_with_token := fun _ _ => Ret tt;
  get_projects := fun _ _ => Ret None;
  project_get := fun _ _ => Ret None;
  get_with_models := fun _ _ _ => Ret None;
  get_with_team := fun _ _ => Ret [];
  get_versions := fun _ _ _ _ => Ret None;
  version_get := fun _ vid _ => Ret (if str_eqb vid (u "v1") then Some demo_version else None);
  receive := fun _ _ _ => Ret wall;
  py_lower := ascii_lower;
  fmt_Y := pad_dec 4;
  isoformat := fun dt => format_datetime (pad_dec 4) dt true;
  class_name := fun _ => u "Base";
  nav_db := latin1_db;
  nav_builtin_attr := no_builtin_attr;
  int_error_msg := u "invalid literal for int() with base 10" |}.

(** the singleton is the same after running [m] *)
Definition keeps {C A} (m : M C A) (s : client_state C) : Prop := snd (m s) = s.

(** [".".join(parts)], the inverse of [split_dot] *)
Fixpoint join_dot (parts : list pystr) : pystr :=
  match parts with
  | [] => []
  | [x] => x
  | x :: r => x ++ 46%N :: join_dot r
  end.

(** the sub-path an error message reports *)
Definition err_path (e : path_error) : pystr :=
  match e with
  | IndexOutOfRange _ p => p
  | PropertyNotFound _ p => p
  end.

(** ** Basic lemmas *)

Lemma str_eqb_eq (a b : pystr) : str_eqb a b = true <-> a = b.
Proof.
  revert b; induction a as [|x a IH]; intros [|y b]; simpl; split; intros H;
    try discriminate; try reflexivity.
  - apply andb_true_iff in H as [H1 H2]. apply N.eqb_eq in H1. apply IH in H2. congruence.
  - injection H as -> ->. rewrite N.eqb_refl. apply IH. reflexivity.
Qed.

Lemma str_eqb_refl (a : pystr) : str_eqb a a = true.
Proof. apply str_eqb_eq. reflexivity. Qed.

Lemma forallb_map_take {A B} (f : A -> B) (Q : B -> bool) (n : nat) (l : list A) :
  (forall a, In a l -> Q (f a) = true) -> forallb Q (map_take f n l) = true.
Proof.
  revert n; induction l as [|a l IH]; intros [|n] H; simpl; auto.
  rewrite H by (left; reflexivity). simpl. apply IH. intros; apply H; right; assumption.
Qed.

Lemma forallb_dict_set (Q : pystr * pyval -> bool) l k v :
  forallb Q l = true -> (forall k', str_eqb k k' = true -> Q (k', v) = true) ->
  forallb Q (dict_set l k v) = true.
Proof.
  intros Hl Hk. induction l as [|[k' v'] l IH]; simpl in *.
  - rewrite (Hk k (str_eqb_refl k)). reflexivity.
  - apply andb_true_iff in Hl as [H1 H2].
    destruct (str_eqb k k') eqn:E; simpl.
    + rewrite (Hk k' E). exact H2.
    + rewrite H1. apply IH. exact H2.
Qed.

Lemma forallb_keep_public (Q : pystr * pyval -> bool) f kvs :
  (forall k v, In (k, v) kvs -> starts_underscore k = false -> Q (k, f v) = true) ->
  forallb Q (keep_public f kvs) = true.
Proof.
  induction kvs as [|[k v] r IH]; intros H; simpl; auto.
  destruct (starts_underscore k) eqn:E.
  - apply IH. intros; apply H; auto. right; assumption.
  - simpl. rewrite H by (auto; left; reflexivity). apply IH. intros; apply H; auto. right; assumption.
Qed.

(** Past the bound, every value becomes a Reference Stub. *)
Lemma convert_cut x depth max_depth :
  max_depth < depth -> convert_to_dict x depth max_depth false = reference_stub (stub_id x).
Proof.
  intros H. assert (E : (max_depth <? depth) = true) by (apply Nat.ltb_lt; exact H).
  destruct x as [| | | | | | |attrs od td r]; simpl; rewrite ?E; try reflexivity.
  destruct td as [[data|]|]; simpl; rewrite ?E; reflexivity.
Qed.

Lemma convert_nocut x depth max_depth ic :
  (max_depth <? depth) && negb ic = false ->
  convert_to_dict x depth max_depth ic =
  match x with
  | PObj attrs od td r =>
      match td with
      | Some (Some data) =>
          PDict (keep_public (fun v => process_value_with
                   (fun y d => convert_to_dict y d max_depth ic) v depth) data)
      | _ =>
          match od with
          | Some d => PDict (keep_public (fun v => process_value_with
                          (fun y d' => convert_to_dict y d' max_depth ic) v depth) d)
          | None => PStr r
          end
      end
  | PList xs => process_list_with (fun y d => convert_to_dict y d max_depth ic) xs depth
  | PDict kvs => process_dict_with (fun y d => convert_to_dict y d max_depth ic) kvs depth
  | _ => x
  end.
Proof.
  intros E. destruct x as [| | | | | | |attrs od td r]; simpl; rewrite ?E; try reflexivity.
Qed.

Lemma nodes_within_stub s B lvl id : nodes_within s B lvl (reference_stub id) = true.
Proof. reflexivity. Qed.

Lemma nw_list s B lvl xs :
  (lvl <=? B) = true -> forallb (fun y => nodes_within s B (S lvl) y) xs = true ->
  nodes_within s B lvl (PList xs) = true.
Proof. intros H1 H2. simpl. rewrite H1, H2. destruct s; reflexivity. Qed.

Lemma nw_dict s B lvl kvs :
  (lvl <=? B) = true ->
  forallb (fun '(k, y) => (s && is_note_entry k y) || nodes_within s B (S lvl) y) kvs = true ->
  nodes_within s B lvl (PDict kvs) = true.
Proof.
  intros H1 H2.
  change (is_stub (PDict kvs) || (s && is_list_sentinel (PDict kvs)) ||
          ((lvl <=? B) && forallb (fun '(k, y) => (s && is_note_entry k y) || nodes_within s B (S lvl) y) kvs)
          = true).
  rewrite H1, H2. apply orb_true_r.
Qed.

Section DepthBound.
Variable d : nat.
Let B := 2 * d + 1.

Lemma process_list_within cv xs k m :
  k <= d -> m <= 2 * k + 1 ->
  (forall y, In y xs -> nodes_within true B (S m) (cv y (S k)) = true) ->
  nodes_within true B m (process_list_with cv xs k) = true.
Proof.
  intros Hk Hm Hy. assert (Hb : (m <=? B) = true) by (apply Nat.leb_le; unfold B; lia).
  unfold process_list_with. destruct xs as [|x0 xs0].
  - apply nw_list; [exact Hb | reflexivity].
  - apply nw_list; [exact Hb |]. rewrite forallb_app.
    rewrite (forallb_map_take _ _ _ _ Hy). simpl.
    destruct (limit <? S (List.length xs0)); reflexivity.
Qed.

Lemma process_dict_within cv kvs k m :
  k <= d -> m <= 2 * k + 1 ->
  (forall key y, In (key, y) kvs -> nodes_within true B (S m) (cv y (S k)) = true) ->
  nodes_within true B m (process_dict_with cv kvs k) = true.
Proof.
  intros Hk Hm Hy. assert (Hb : (m <=? B) = true) by (apply Nat.leb_le; unfold B; lia).
  unfold process_dict_with. destruct kvs as [|kv0 kvs0].
  - apply nw_dict; [exact Hb | reflexivity].
  - apply nw_dict; [exact Hb |].
    assert (Hm5 : forallb (fun '(k0, y) => (true && is_note_entry k0 y) || nodes_within true B (S m) y)
                    (map_take (fun '(k0, v) => (k0, cv v (S k))) limit (kv0 :: kvs0)) = true).
    { apply forallb_map_take. intros [key y] Hin. rewrite (Hy key y Hin). apply orb_true_r. }
    destruct (limit <? List.length (kv0 :: kvs0)); [| exact Hm5].
    apply forallb_dict_set; [exact Hm5 |].
    intros k' Hk'. apply str_eqb_eq in Hk'. subst k'. reflexivity.
Qed.

Lemma entries_within cv (data : list (pystr * pyval)) k n :
  n <= 2 * k -> k <= d ->
  (forall key v, In (key, v) data -> nodes_within true B (S n) (process_value_with cv v k) = true) ->
  nodes_within true B n (PDict (keep_public (fun v => process_value_with cv v k) data)) = true.
Proof.
  intros Hn Hk Hv. apply nw_dict; [apply Nat.leb_le; unfold B; lia |].
  apply forallb_keep_public. intros key v Hin _. rewrite (Hv key v Hin). apply orb_true_r.
Qed.

Lemma convert_within_gen x :
  (forall k n, n <= 2 * k -> nodes_within true B n (convert_to_dict x k d false) = true) /\
  (forall k n, k <= d -> n <= 2 * k + 1 ->
     nodes_within true B n (process_value_with (fun y d0 => convert_to_dict y d0 d false) x k) = true).
Proof.
  induction x as [| | | | |xs IH|kvs IH|attrs od td r _ IHod IHtd] using pyval_ind'.
  (* scalars *)
  1-5: split; [intros k n Hn; destruct (Nat.ltb_spec d k) as [Hlt|Hle];
               [rewrite convert_cut by exact Hlt; apply nodes_within_stub
               |rewrite convert_nocut by (apply andb_false_iff; left; apply Nat.ltb_ge; exact Hle);
                simpl; rewrite (proj2 (Nat.leb_le n B)) by (unfold B; lia); reflexivity]
              |intros k n Hk Hn; simpl; rewrite (proj2 (Nat.leb_le n B)) by (unfold B; lia); reflexivity].
  - (* list *)
    assert (Hl : forall k m, k <= d -> m <= 2 * k + 1 ->
              nodes_within true B m (process_list_with (fun y d0 => convert_to_dict y d0 d false) xs k) = true).
    { intros k m Hk Hm. apply process_list_within; [exact Hk | exact Hm |].
      intros y Hin. rewrite Forall_forall in IH. apply (proj1 (IH y Hin)). lia. }
    split.
    + intros k n Hn. destruct (Nat.ltb_spec d k) as [Hlt|Hle].
      * rewrite convert_cut by exact Hlt. apply nodes_within_stub.
      * rewrite convert_nocut by (apply andb_false_iff; left; apply Nat.ltb_ge; exact Hle).
        apply Hl; lia.
    + intros k n Hk Hn. apply Hl; assumption.
  - (* mapping *)
    assert (Hl : forall k m, k <= d -> m <= 2 * k + 1 ->
              nodes_within true B m (process_dict_with (fun y d0 => convert_to_dict y d0 d false) kvs k) = true).
    { intros k m Hk Hm. apply process_dict_within; [exact Hk | exact Hm |].
      intros key y Hin. rewrite Forall_forall in IH. apply (proj1 (IH (key, y) Hin)). simpl. lia. }
    split.
    + intros k n Hn. destruct (Nat.ltb_spec d k) as [Hlt|Hle].
      * rewrite convert_cut by exact Hlt. apply nodes_within_stub.
      * rewrite convert_nocut by (apply andb_false_iff; left; apply Nat.ltb_ge; exact Hle).
        apply Hl; lia.
    + intros k n Hk Hn. apply Hl; assumption.
  - (* object *)
    assert (Hc : forall k n, n <= 2 * k ->
              nodes_within true B n (convert_to_dict (PObj attrs od td r) k d false) = true).
    { intros k n Hn. destruct (Nat.ltb_spec d k) as [Hlt|Hle].
      - rewrite convert_cut by exact Hlt. apply nodes_within_stub.
      - rewrite convert_nocut by (apply andb_false_iff; left; apply Nat.ltb_ge; exact Hle).
        assert (Hdata : forall data, Forall (fun kv => (forall k n, n <= 2 * k ->
                    nodes_within true B n (convert_to_dict (snd kv) k d false) = true) /\
                  (forall k n, k <= d -> n <= 2 * k + 1 -> nodes_within true B n
                    (process_value_with (fun y d0 => convert_to_dict y d0 d false) (snd kv) k) = true)) data ->
                  nodes_within true B n (PDict (keep_public (fun v => process_value_with
                    (fun y d0 => convert_to_dict y d0 d false) v k) data)) = true).
        { intros data Hf. apply entries_within; [exact Hn | exact Hle |].
          intros key v Hin. rewrite Forall_forall in Hf. apply (proj2 (Hf (key, v) Hin)); lia. }
        destruct td as [[data|]|]; simpl in IHtd.
        + apply Hdata; exact IHtd.
        + destruct od as [dd|]; simpl in IHod; [apply Hdata; exact IHod |].
          simpl. rewrite (proj2 (Nat.leb_le n B)) by (unfold B; lia). reflexivity.
        + destruct od as [dd|]; simpl in IHod; [apply Hdata; exact IHod |].
          simpl. rewrite (proj2 (Nat.leb_le n B)) by (unfold B; lia). reflexivity. }
    split; [exact Hc |].
    intros k n Hk Hn. simpl. apply Hc. lia.
Qed.
End DepthBound.

(** ** C1: depth bound of the Graph Serializer *)

(** C1 (as stated): with [include_children = false] and [max_depth = d], no
    node other than a Reference Stub sits at nesting depth greater than
    [d].  False: with [d = 1], an object held in a list attribute of the
    root is converted at depth 1 but sits at nesting depth 2, expanded. *)
Lemma C1_counterexample :
  convert_to_dict c1_graph 0 1 false =
    PDict [(u "a", PList [PDict [(u "b", PInt 1)]])] /\
  nodes_within false 1 0 (convert_to_dict c1_graph 0 1 false) = false.
Proof. split; reflexivity. Qed.

(** C1 (amended): a list- or mapping-valued attribute of an object is
    converted at the object's own depth, so the depth counter advances once
    per two nesting levels along object, collection, object chains.  With
    [include_children = false] and [max_depth = d], every node that is not
    a Reference Stub or part of a truncation sentinel sits at nesting
    depth at most [2 d + 1]. *)
Theorem C1_depth_bound_amended (x : pyval) (d : nat) :
  nodes_within true (2 * d + 1) 0 (convert_to_dict x 0 d false) = true.
Proof. apply (proj1 (convert_within_gen d x)). lia. Qed.

(** ** C2: truncation of lists and mappings *)

Lemma map_take_firstn {A B} (f : A -> B) n l : map_take f n l = map f (firstn n l).
Proof. revert n; induction l as [|a l IH]; intros [|n]; simpl; f_equal; auto. Qed.

Lemma dict_set_absent l k v :
  ~ In k (map fst l) -> dict_set l k v = l ++ [(k, v)].
Proof.
  induction l as [|[k' v'] l IH]; intros H; simpl; [reflexivity |].
  simpl in H. destruct (str_eqb k k') eqn:E.
  - apply str_eqb_eq in E. exfalso. apply H. left. symmetry. exact E.
  - f_equal. apply IH. intros Hin. apply H. right. exact Hin.
Qed.

Lemma map_replace_absent (f : pystr * pyval -> pystr * pyval) k l :
  (forall k' v', str_eqb k k' = false -> f (k', v') = (k', v')) ->
  ~ In k (map fst l) -> map f l = l.
Proof.
  intros Hf. induction l as [|[k' v'] l IH]; intros H; simpl; [reflexivity |].
  simpl in H. rewrite Hf.
  - f_equal. apply IH. intros Hin; apply H; right; exact Hin.
  - destruct (str_eqb k k') eqn:E; [| reflexivity].
    apply str_eqb_eq in E. exfalso. apply H. left. symmetry. exact E.
Qed.

Lemma dict_set_present l k v :
  NoDup (map fst l) -> In k (map fst l) ->
  dict_set l k v = map (fun '(k', v') => if str_eqb k k' then (k', v) else (k', v')) l.
Proof.
  induction l as [|[k' v'] l IH]; intros Hnd Hin; simpl in *; [contradiction |].
  inversion Hnd as [|? ? Hnot Hnd']; subst.
  destruct (str_eqb k k') eqn:E.
  - f_equal. symmetry. apply (map_replace_absent _ k).
    + intros k'' v'' E'. rewrite E'. reflexivity.
    + apply str_eqb_eq in E. subst. exact Hnot.
  - f_equal. apply IH; [exact Hnd' |].
    destruct Hin as [Heq|Hin]; [| exact Hin].
    subst. rewrite str_eqb_refl in E. discriminate.
Qed.

Lemma NoDup_firstn_keys (l : list (pystr * pyval)) n :
  NoDup (map fst l) -> NoDup (map fst (firstn n l)).
Proof.
  intros H. rewrite <- firstn_map. apply (NoDup_app_remove_r _ (skipn n (map fst l))).
  rewrite firstn_skipn. exact H.
Qed.

Lemma keys_convert (g : pyval -> pyval) (l : list (pystr * pyval)) :
  map fst (map (fun '(k, v) => (k, g v)) l) = map fst l.
Proof. induction l as [|[k v] l IH]; simpl; f_equal; auto. Qed.

(** C2 (as stated): a mapping of more than five entries keeps its first
    five entries and gains one [_note] sentinel.  False: when one of the
    five kept keys is [_note] itself, the sentinel overwrites that entry and
    the result has five entries. *)
Lemma C2_counterexample :
  _process_dict c2_data 0 2 false =
    PDict [(u "_note", PStr (u "...1 more items")); (u "a", PInt 1); (u "b", PInt 2);
           (u "c", PInt 3); (u "d", PInt 4)] /\
  _process_dict c2_data 0 2 false <>
    PDict (map (fun '(k, v) => (k, convert_to_dict v 1 2 false)) (firstn limit c2_data)
           ++ [(u "_note", PStr (note_msg (List.length c2_data - limit)))]).
Proof. split; [reflexivity | vm_compute; discriminate]. Qed.

(** C2 (amended): a list or mapping of length [L <= 5] is serialized with
    every element or entry, in order, and no sentinel.  A list of length
    [L > 5] keeps its first five elements, in order, followed by one
    sentinel [{"_note": "...(L-5) more items"}].  A mapping of length
    [L > 5] keeps its first five entries, in order; the sentinel entry
    [_note] reporting [L - 5] comes after them, or, when one of the five
    kept keys is [_note] itself, takes that entry's place and value. *)
Theorem C2_truncation_amended depth max_depth ic :
  (forall items, List.length items <= limit ->
     _process_list items depth max_depth ic =
       PList (map (fun i => convert_to_dict i (S depth) max_depth ic) items)) /\
  (forall items, limit < List.length items ->
     _process_list items depth max_depth ic =
       PList (map (fun i => convert_to_dict i (S depth) max_depth ic) (firstn limit items)
              ++ [PDict [(u "_note", PStr (note_msg (List.length items - limit)))]])) /\
  (forall data, List.length data <= limit ->
     _process_dict data depth max_depth ic =
       PDict (map (fun '(k, v) => (k, convert_to_dict v (S depth) max_depth ic)) data)) /\
  (forall data, NoDup (map fst data) -> limit < List.length data ->
     ~ In (u "_note") (map fst (firstn limit data)) ->
     _process_dict data depth max_depth ic =
       PDict (map (fun '(k, v) => (k, convert_to_dict v (S depth) max_depth ic)) (firstn limit data)
              ++ [(u "_note", PStr (note_msg (List.length data - limit)))])) /\
  (forall data, NoDup (map fst data) -> limit < List.length data ->
     In (u "_note") (map fst (firstn limit data)) ->
     _process_dict data depth max_depth ic =
       PDict (map (fun '(k, v) => if str_eqb (u "_note") k
                                  then (k, PStr (note_msg (List.length data - limit)))
                                  else (k, convert_to_dict v (S depth) max_depth ic))
                  (firstn limit data))).
Proof.
  unfold _process_list, _process_dict, process_list_with, process_dict_with, conv.
  repeat split.
  - intros [|x xs] H; [reflexivity |].
    rewrite map_take_firstn, firstn_all2 by exact H.
    rewrite (proj2 (Nat.ltb_ge _ _) H), app_nil_r. reflexivity.
  - intros [|x xs] H; [simpl in H; lia |].
    rewrite map_take_firstn, (proj2 (Nat.ltb_lt _ _) H). reflexivity.
  - intros [|x xs] H; [reflexivity |].
    rewrite map_take_firstn, firstn_all2 by exact H.
    rewrite (proj2 (Nat.ltb_ge _ _) H). reflexivity.
  - intros [|x xs] Hnd H Hn; [simpl in H; lia |].
    rewrite map_take_firstn, (proj2 (Nat.ltb_lt _ _) H).
    rewrite dict_set_absent; [reflexivity |]. rewrite keys_convert. exact Hn.
  - intros [|x xs] Hnd H Hn; [simpl in H; lia |].
    rewrite map_take_firstn, (proj2 (Nat.ltb_lt _ _) H).
    rewrite dict_set_present.
    + rewrite map_map. f_equal. apply map_ext. intros [k v]. reflexivity.
    + rewrite keys_convert. apply NoDup_firstn_keys. exact Hnd.
    + rewrite keys_convert. exact Hn.
Qed.

Lemma C2_witness :
  _process_dict c2_data 0 2 false =
    PDict (map (fun '(k, v) => if str_eqb (u "_note") k
                               then (k, PStr (note_msg (List.length c2_data - limit)))
                               else (k, convert_to_dict v 1 2 false))
               (firstn limit c2_data)).
Proof.
  destruct (C2_truncation_amended 0 2 false) as (_ & _ & _ & _ & H5).
  apply H5.
  - vm_compute. repeat constructor; simpl; intuition discriminate.
  - vm_compute. lia.
  - vm_compute. left. reflexivity.
Defined.

(** ** C6: Reference Stubs *)

(** C6 (as stated): a stub carries the node's [id] attribute (null when it
    has none).  False for an object serialized through [to_dict()]: the
    stub carries the [id] entry of the [to_dict()] result, here absent,
    although the object has an [id] attribute. *)
Lemma C6_counterexample :
  getattr_id c6_obj = PStr (u "abc") /\
  convert_to_dict c6_obj 3 2 false = reference_stub PNone /\
  convert_to_dict c6_obj 3 2 false <> reference_stub (getattr_id c6_obj).
Proof. split; [reflexivity | split; [reflexivity | vm_compute; discriminate]]. Qed.

(** C6 (amended): past the depth bound every value becomes the mapping
    [{"id": i, "_type": "reference"}] with exactly these two keys.  [i] is
    the node's [id] attribute ([None] when absent), except for an object
    whose [to_dict()] succeeds, where [i] is the [id] entry of the
    [to_dict()] result ([None] when absent). *)
Theorem C6_stub_amended x depth max_depth :
  max_depth < depth ->
  convert_to_dict x depth max_depth false =
    PDict [(u "id", stub_id x); (u "_type", PStr (u "reference"))] /\
  match x with
  | PObj _ _ (Some (Some data)) _ => stub_id x = dict_get (u "id") data
  | _ => stub_id x = getattr_id x
  end.
Proof.
  intros H. split; [apply convert_cut; exact H |].
  destruct x as [| | | | | | |attrs od [[data|]|] r]; reflexivity.
Qed.

Lemma C6_witness :
  convert_to_dict c6_obj 3 2 false =
    PDict [(u "id", stub_id c6_obj); (u "_type", PStr (u "reference"))].
Proof. apply (proj1 (C6_stub_amended c6_obj 3 2 ltac:(lia))). Defined.

(** ** C9: internal-marker attributes *)

Lemma str_eqb_false (a b : pystr) : a <> b -> str_eqb a b = false.
Proof. intros H. destruct (str_eqb a b) eqn:E; [apply str_eqb_eq in E; contradiction | reflexivity]. Qed.

Lemma assoc_map_conv (g : pyval -> pyval) l k v :
  NoDup (map fst l) -> In (k, v) l -> assoc k (map (fun '(k', y) => (k', g y)) l) = Some (g v).
Proof.
  induction l as [|[k' v'] l IH]; intros Hnd Hin; simpl in *; [contradiction |].
  inversion Hnd as [|? ? Hnot Hnd']; subst.
  destruct Hin as [Heq|Hin].
  - injection Heq as -> ->. rewrite str_eqb_refl. reflexivity.
  - destruct (str_eqb k k') eqn:E.
    + apply str_eqb_eq in E. subst. exfalso. apply Hnot. apply (in_map fst _ _ Hin).
    + apply IH; assumption.
Qed.

Lemma assoc_dict_set_other l k k' w :
  k <> k' -> assoc k (dict_set l k' w) = assoc k l.
Proof.
  intros Hne. induction l as [|[k0 v0] l IH]; simpl.
  - rewrite (str_eqb_false _ _ Hne). reflexivity.
  - destruct (str_eqb k' k0) eqn:E; simpl.
    + apply str_eqb_eq in E. subst. rewrite (str_eqb_false _ _ Hne). reflexivity.
    + destruct (str_eqb k k0); [reflexivity | exact IH].
Qed.

Lemma public_keys (f : pyval -> pyval) kvs :
  forallb (fun kv => negb (starts_underscore (fst kv))) (keep_public f kvs) = true.
Proof.
  apply forallb_keep_public. intros k v _ H. simpl. rewrite H. reflexivity.
Qed.

(** C9 (as stated): in a plain mapping, every kept entry whose key starts
    with an underscore is retained.  False for the key [_note] in a mapping
    of more than five entries: its value is replaced by the sentinel. *)
Lemma C9_counterexample :
  In (u "_note", PInt 0) (firstn limit c2_data) /\
  starts_underscore (u "_note") = true /\
  match _process_dict c2_data 0 2 false with
  | PDict kvs => assoc (u "_note") kvs
  | _ => None
  end = Some (PStr (u "...1 more items")) /\
  convert_to_dict (PInt 0) 1 2 false = PInt 0.
Proof. split; [simpl; auto | split; [reflexivity | split; reflexivity]]. Qed.

(** C9 (amended): a plain mapping the serializer expands keeps each of its
    first five entries, underscore-prefixed keys included, with its value
    serialized, except that in a mapping of more than five entries a kept
    [_note] entry takes the sentinel's value.  A structured object is
    serialized to a Reference Stub, to its [str()], or to a mapping none of
    whose keys starts with an underscore. *)
Theorem C9_underscore_amended :
  (forall data depth max_depth ic key v,
     NoDup (map fst data) -> In (key, v) (firstn limit data) ->
     List.length data <= limit \/ key <> u "_note" ->
     exists kvs, _process_dict data depth max_depth ic = PDict kvs /\
                 assoc key kvs = Some (convert_to_dict v (S depth) max_depth ic)) /\
  (forall attrs od td r depth max_depth ic,
     convert_to_dict (PObj attrs od td r) depth max_depth ic = reference_stub (stub_id (PObj attrs od td r)) \/
     (exists kvs, convert_to_dict (PObj attrs od td r) depth max_depth ic = PDict kvs /\
                  forallb (fun kv => negb (starts_underscore (fst kv))) kvs = true) \/
     convert_to_dict (PObj attrs od td r) depth max_depth ic = PStr r).
Proof.
  split.
  - intros data depth max_depth ic key v Hnd Hin Hcase.
    unfold _process_dict, process_dict_with, conv.
    destruct data as [|x xs]; [simpl in Hin; contradiction |].
    rewrite map_take_firstn.
    assert (Hnd5 := NoDup_firstn_keys _ limit Hnd).
    destruct (Nat.ltb_spec limit (List.length (x :: xs))) as [Hlt|Hge].
    + eexists; split; [reflexivity |].
      destruct Hcase as [Hle|Hne]; [lia |].
      rewrite assoc_dict_set_other by exact Hne.
      apply (assoc_map_conv (fun y => convert_to_dict y (S depth) max_depth ic)); assumption.
    + eexists; split; [reflexivity |].
      apply (assoc_map_conv (fun y => convert_to_dict y (S depth) max_depth ic)); assumption.
  - intros attrs od td r depth max_depth ic.
    destruct ((max_depth <? depth) && negb ic) eqn:E.
    + left. apply andb_true_iff in E as [E1 E2].
      destruct ic; [discriminate |]. apply convert_cut. apply Nat.ltb_lt. exact E1.
    + right. rewrite convert_nocut by exact E.
      destruct td as [[data|]|];
        [left; eexists; split; [reflexivity | apply public_keys] | |];
        (destruct od as [dd|];
         [left; eexists; split; [reflexivity | apply public_keys] | right; reflexivity]).
Qed.

Lemma C9_witness :
  exists kvs, _process_dict c9_data 0 2 false = PDict kvs /\
              assoc (u "_x") kvs = Some (convert_to_dict (PInt 7) 1 2 false).
Proof.
  apply (proj1 C9_underscore_amended).
  - vm_compute. repeat constructor; simpl; intuition discriminate.
  - vm_compute. left. reflexivity.
  - left. vm_compute. lia.
Defined.

(** ** C7: Value Normalizer *)

Lemma all_some_map_Forall2 {A B} (f : A -> option B) l ys :
  all_some (map f l) = Some ys <-> Forall2 (fun x y => f x = Some y) l ys.
Proof.
  revert ys; induction l as [|x l IH]; intros ys; simpl.
  - split; [intros H; injection H as <-; constructor | intros H; inversion H; reflexivity].
  - destruct (f x) as [y|] eqn:Ef.
    + split.
      * destruct (all_some (map f l)) as [ys'|] eqn:Er; simpl; [| discriminate].
        intros H; injection H as <-. constructor; [exact Ef | apply IH; reflexivity].
      * intros H. inversion H as [|? y' ? ys' Hy Hr]; subst.
        rewrite Ef in Hy. injection Hy as <-. rewrite (proj2 (IH ys') Hr). reflexivity.
    + split; [discriminate |]. intros H. inversion H as [|? y' ? ys' Hy Hr]; subst. congruence.
Qed.

Lemma all_some_map_None {A B} (f : A -> option B) l x :
  In x l -> f x = None -> all_some (map f l) = None.
Proof.
  intros Hin Hx. induction l as [|y l IH]; [destruct Hin |].
  destruct Hin as [<- | Hin]; simpl.
  - rewrite Hx. reflexivity.
  - destruct (f y); [| reflexivity]. rewrite (IH Hin). reflexivity.
Qed.

Lemma all_some_map_exists {A B} (f : A -> option B) l :
  (forall x, In x l -> exists y, f x = Some y) -> exists ys, all_some (map f l) = Some ys.
Proof.
  induction l as [|x l IH]; intros H; [exists []; reflexivity |].
  destruct (H x (or_introl eq_refl)) as [y Hy].
  destruct IH as [ys Hys]; [intros; apply H; right; assumption |].
  exists (y :: ys). simpl. rewrite Hy, Hys. reflexivity.
Qed.

Lemma all_some_map_impl {A B} (f g : A -> option B) l ys :
  (forall x y, f x = Some y -> g x = Some y) ->
  all_some (map f l) = Some ys -> all_some (map g l) = Some ys.
Proof.
  intros Hfg H. apply all_some_map_Forall2. apply all_some_map_Forall2 in H.
  induction H; constructor; [apply Hfg |]; assumption.
Qed.

Lemma entry_impl (F G : nat -> option pyval) :
  (forall x y, F x = Some y -> G x = Some y) ->
  forall (p : pystr * nat) q,
    (let '(k, l') := p in option_map (fun y => (k, y)) (F l')) = Some q ->
    (let '(k, l') := p in option_map (fun y => (k, y)) (G l')) = Some q.
Proof.
  intros H [k l'] q. destruct (F l') as [y|] eqn:Ef; simpl; [| discriminate].
  rewrite (H _ _ Ef). exact (fun e => e).
Qed.

Lemma convert_value_at_eq f h l :
  convert_value_at (S f) h l =
    match h l with
    | HObj _ od td r =>
        match td with
        | Some (Some data) => Some (PDict data)
        | _ => match od with
               | Some d => option_map PDict (all_some (map (fun '(k, l') =>
                             option_map (fun y => (k, y)) (convert_value_at f h l')) (public_entries d)))
               | None => Some (PStr r)
               end
        end
    | HList xs => option_map PList (all_some (map (convert_value_at f h) xs))
    | HDict kvs => option_map PDict (all_some (map (fun '(k, l') =>
                     option_map (fun y => (k, y)) (convert_value_at f h l')) kvs))
    | HNone => Some PNone
    | HBool b => Some (PBool b)
    | HInt z => Some (PInt z)
    | HFloat r => Some (PFloat r)
    | HStr s => Some (PStr s)
    end.
Proof. reflexivity. Qed.

Lemma convert_value_at_S fuel h l r :
  convert_value_at fuel h l = Some r -> convert_value_at (S fuel) h l = Some r.
Proof.
  revert l r; induction fuel as [|f IH]; intros l r H; [discriminate |].
  rewrite convert_value_at_eq in H |- *.
  destruct (h l) as [| | | | | xs | kvs | attrs od td rp]; try exact H.
  - destruct (all_some (map (convert_value_at f h) xs)) as [ys|] eqn:E; [| discriminate].
    rewrite (all_some_map_impl _ _ _ _ IH E). exact H.
  - destruct (all_some _) as [ys|] eqn:E; [| discriminate].
    rewrite (all_some_map_impl _ _ _ _ (entry_impl _ _ IH) E). exact H.
  - destruct td as [[data|]|]; [exact H | |]; (destruct od as [d|]; [| exact H]);
      (destruct (all_some _) as [ys|] eqn:E; [| discriminate]);
      rewrite (all_some_map_impl _ _ _ _ (entry_impl _ _ IH) E); exact H.
Qed.

Lemma convert_value_at_mono n m h l r :
  n <= m -> convert_value_at n h l = Some r -> convert_value_at m h l = Some r.
Proof.
  intros Hle H. induction Hle as [|m Hle IH]; [exact H |]. apply convert_value_at_S. exact IH.
Qed.

Lemma fuel_common h (cs : list nat) :
  (forall c, In c cs -> exists n r, convert_value_at n h c = Some r) ->
  exists N, forall c, In c cs -> exists r, convert_value_at N h c = Some r.
Proof.
  induction cs as [|c cs IH]; intros H; [exists 0; intros c [] |].
  destruct (H c (or_introl eq_refl)) as (n & r & Hr).
  destruct IH as [N HN]; [intros; apply H; right; assumption |].
  exists (Nat.max n N). intros c' [<- | Hin].
  - exists r. apply (convert_value_at_mono n); [lia | exact Hr].
  - destruct (HN c' Hin) as [r' Hr']. exists r'. apply (convert_value_at_mono N); [lia | exact Hr'].
Qed.

Lemma entries_exists (F : nat -> option pyval) (kvs : list (pystr * nat)) :
  (forall c, In c (map snd kvs) -> exists r, F c = Some r) ->
  exists ys, all_some (map (fun '(k, l') => option_map (fun y => (k, y)) (F l')) kvs) = Some ys.
Proof.
  intros H. apply all_some_map_exists. intros [k l'] Hin.
  destruct (H l') as [y Hy]; [apply (in_map snd _ _ Hin) |].
  exists (k, y). rewrite Hy. reflexivity.
Qed.

Lemma entries_None (F : nat -> option pyval) (kvs : list (pystr * nat)) b :
  In b (map snd kvs) -> F b = None ->
  all_some (map (fun '(k, l') => option_map (fun y => (k, y)) (F l')) kvs) = None.
Proof.
  intros Hin Hb. apply in_map_iff in Hin. destruct Hin as [[k l'] [Heq Hin]]. simpl in Heq. subst l'.
  apply (all_some_map_None _ _ (k, b) Hin). rewrite Hb. reflexivity.
Qed.

Lemma convert_value_at_acc h l :
  Acc (fun a b => In a (cv_children h b)) l -> exists n r, convert_value_at n h l = Some r.
Proof.
  induction 1 as [l _ IH].
  destruct (fuel_common h (cv_children h l) IH) as [N HN].
  exists (S N). unfold cv_children in HN. rewrite convert_value_at_eq.
  destruct (h l) as [| b | z | fr | t | xs | kvs | attrs od td rp].
  1-5: eexists; reflexivity.
  - destruct (all_some_map_exists (convert_value_at N h) xs HN) as [ys Hys].
    rewrite Hys. eexists; reflexivity.
  - destruct (entries_exists (convert_value_at N h) kvs HN) as [ys Hys].
    rewrite Hys. eexists; reflexivity.
  - destruct td as [[data|]|]; [eexists; reflexivity | |];
      (destruct od as [d|]; [| eexists; reflexivity]);
      destruct (entries_exists (convert_value_at N h) (public_entries d) HN) as [ys Hys];
      rewrite Hys; eexists; reflexivity.
Qed.

Lemma convert_value_at_cycle h (P : nat -> Prop) :
  (forall a, P a -> exists b, P b /\ In b (cv_children h a)) ->
  forall fuel l, P l -> convert_value_at fuel h l = None.
Proof.
  intros Hc fuel. induction fuel as [|f IH]; intros l Hl; [reflexivity |].
  destruct (Hc l Hl) as (b & Hb & Hin). specialize (IH b Hb).
  unfold cv_children in Hin. rewrite convert_value_at_eq.
  destruct (h l) as [| | | | | xs | kvs | attrs od td rp]; try destruct Hin.
  - rewrite (all_some_map_None _ _ b Hin IH). reflexivity.
  - rewrite (entries_None _ _ b Hin IH). reflexivity.
  - destruct od as [d|]; [| destruct Hin].
    destruct td as [[data|]|]; [destruct Hin | |];
      rewrite (entries_None _ _ b Hin IH); reflexivity.
Qed.

Lemma entries_Forall2 (F : nat -> option pyval) (kvs : list (pystr * nat)) ys :
  all_some (map (fun '(k, l') => option_map (fun y => (k, y)) (F l')) kvs) = Some ys ->
  map fst ys = map fst kvs /\ Forall2 (fun x y => F x = Some y) (map snd kvs) (map snd ys).
Proof.
  intros H. apply all_some_map_Forall2 in H.
  induction H as [|[k l'] q kvs ys Hq _ IH]; [split; constructor |].
  destruct (F l') as [y|] eqn:Ef; simpl in Hq; [| discriminate].
  injection Hq as <-. destruct IH as [IH1 IH2]. simpl. split; [f_equal; exact IH1 | constructor; assumption].
Qed.

Lemma acc_of_ordered h l :
  (forall a b, In b (cv_children h a) -> b < a) -> Acc (fun a b => In a (cv_children h b)) l.
Proof.
  intros Hord. induction l as [l IH] using (well_founded_induction Wf_nat.lt_wf).
  constructor. intros a Ha. apply IH. exact (Hord l a Ha).
Qed.

(** C7 (as stated): [convert_value] is a total function.  False on a
    cyclic graph: on the list that contains itself
    ([l = []; l.append(l)]) it recurses forever and never returns (CPython
    raises RecursionError). *)
Lemma C7_counterexample :
  ~ exists fuel r, convert_value_at fuel self_list_heap 0 = Some r.
Proof.
  intros (fuel & r & H). revert r H.
  induction fuel as [|f IH]; intros r H; [discriminate |].
  rewrite convert_value_at_eq in H. unfold self_list_heap in H at 1. cbn [map all_some] in H.
  destruct (convert_value_at f self_list_heap 0) as [y|] eqn:E; [exact (IH y eq_refl) | discriminate].
Qed.

(** C7 (amended): [convert_value] has no depth limit and no truncation of
    its own, but it returns only where the graph allows: from a node with
    no infinite path through list elements, mapping values and the public
    [__dict__] entries of objects without a working [to_dict()] (in
    particular on every acyclic graph) it returns, given call stack
    enough, and the same result for any larger stack; from a node on a
    cycle of such edges it never returns.  When it returns on a list, the
    result is a list of the same length whose elements are the normalized
    elements in order; on a mapping, a mapping over all its entries, keys
    in the same order, values normalized. *)
Theorem C7_convert_value_amended (h : heap) (l : nat) :
  (Acc (fun a b => In a (cv_children h b)) l ->
   exists n r, forall fuel, n <= fuel -> convert_value_at fuel h l = Some r) /\
  (forall P : nat -> Prop, P l ->
   (forall a, P a -> exists b, P b /\ In b (cv_children h a)) ->
   forall fuel, convert_value_at fuel h l = None) /\
  (forall fuel r xs, convert_value_at fuel h l = Some r -> h l = HList xs ->
   exists ys, r = PList ys /\ List.length ys = List.length xs /\
     Forall2 (fun x y => convert_value_at (pred fuel) h x = Some y) xs ys) /\
  (forall fuel r kvs, convert_value_at fuel h l = Some r -> h l = HDict kvs ->
   exists kvs', r = PDict kvs' /\ map fst kvs' = map fst kvs /\
     Forall2 (fun x y => convert_value_at (pred fuel) h x = Some y) (map snd kvs) (map snd kvs')).
Proof.
  split; [| split; [| split]].
  - intros Hacc. destruct (convert_value_at_acc h l Hacc) as (n & r & Hr).
    exists n, r. intros fuel Hle. exact (convert_value_at_mono n fuel h l r Hle Hr).
  - intros P Hl Hc fuel. exact (convert_value_at_cycle h P Hc fuel l Hl).
  - intros [|f] r xs H Hx; [discriminate |]. rewrite convert_value_at_eq, Hx in H.
    destruct (all_some (map (convert_value_at f h) xs)) as [ys|] eqn:E; [| discriminate].
    injection H as <-. apply all_some_map_Forall2 in E.
    exists ys. split; [reflexivity |]. split; [symmetry; exact (Forall2_length E) | exact E].
  - intros [|f] r kvs H Hx; [discriminate |]. rewrite convert_value_at_eq, Hx in H.
    destruct (all_some _) as [ys|] eqn:E; [| discriminate].
    injection H as <-. destruct (entries_Forall2 _ _ _ E) as [H1 H2].
    exists ys. split; [reflexivity |]. split; assumption.
Qed.

Lemma C7_witness :
  (exists n r, forall fuel, n <= fuel -> convert_value_at fuel c7_heap 4 = Some r) /\
  (forall fuel, convert_value_at fuel self_list_heap 0 = None) /\
  (exists ys, PList [PInt 7; PDict [(u "w", PFloat (u "2.5")); (u "o", PDict [(u "name", PInt 7)])]]
              = PList ys /\ List.length ys = List.length [0; 3] /\
     Forall2 (fun x y => convert_value_at (pred 4) c7_heap x = Some y) [0; 3] ys).
Proof.
  split; [| split].
  - apply (proj1 (C7_convert_value_amended c7_heap 4)). apply acc_of_ordered.
    intros a b H. destruct a as [|[|[|[|[|a]]]]]; vm_compute in H; intuition lia.
  - apply (proj1 (proj2 (C7_convert_value_amended self_list_heap 0)) (fun a => a = 0)); [reflexivity |].
    intros a ->. exists 0. split; [reflexivity | left; reflexivity].
  - apply (proj1 (proj2 (proj2 (C7_convert_value_amended c7_heap 4))) 4); vm_compute; reflexivity.
Defined.

(** ** C8: the handle_exceptions boundary *)

(** C8 (as stated): whatever the call raises, the caller gets a string
    starting with [Error:].  False for [asyncio.CancelledError], which
    derives from [BaseException] only and is not caught by
    [except Exception]. *)
Lemma C8_counterexample :
  tool list_projects_sig (fun _ => Raise cancelled_error) [PInt 20] = Raise cancelled_error.
Proof. reflexivity. Qed.

(** C8 (amended): when a tool's call raises an exception deriving from
    [Exception] whose [str()] succeeds, the caller receives the string
    ["Error: " + str(e) + "\n\nFor detailed logs, check the server output."];
    an exception deriving from [BaseException] only (CancelledError,
    KeyboardInterrupt, SystemExit) propagates, and so does an exception
    raised by [str(e)] itself. *)
Theorem C8_handle_exceptions_amended sg body args :
  (forall m, py_call sg body args = Raise (Exn true (StrOk m)) ->
     tool sg body args = Ret (u "Error: " ++ m ++ error_tail) /\
     firstn 6 (u "Error: " ++ m ++ error_tail) = u "Error:") /\
  (forall sr, py_call sg body args = Raise (Exn false sr) ->
     tool sg body args = Raise (Exn false sr)) /\
  (forall e', py_call sg body args = Raise (Exn true (StrRaises e')) ->
     tool sg body args = Raise e').
Proof.
  unfold tool. split; [| split]; intros ? H; rewrite H; [split |..]; reflexivity.
Qed.

Lemma C8_witness :
  tool list_projects_sig no_token_body [PInt 20] =
    Ret (u "Error: " ++ u "Speckle token not configured." ++ error_tail).
Proof.
  apply (proj1 (C8_handle_exceptions_amended list_projects_sig no_token_body [PInt 20])
           (u "Speckle token not configured.")).
  reflexivity.
Defined.

(** ** C3: the HTTP mirror *)

Definition list_projects_type_error_text : pystr :=
  u "Error: " ++ too_many_msg list_projects_sig 2 ++ error_tail.

Example list_projects_type_error_text_value :
  list_projects_type_error_text =
    u "Error: list_projects() takes from 0 to 1 positional arguments but 2 were given"
      ++ error_tail.
Proof. reflexivity. Qed.

(** C3: [GET /projects] passes [cursor] as a second positional argument to
    [list_projects(limit)], which takes one: the call raises TypeError,
    [handle_exceptions] turns it into an error text, and the endpoint
    answers that text whatever the tool would have returned for [limit]. *)
Theorem C3_http_list_projects_diverges json_loads :
  (forall s, json_loads s <> None -> json_start s = true) ->
  forall body limit cursor,
    http_list_projects json_loads body limit cursor = PlainTextResponse list_projects_type_error_text /\
    (forall s, body [PInt limit] = Ret s -> s <> list_projects_type_error_text ->
       http_list_projects json_loads body limit cursor <>
       respond json_loads (tool list_projects_sig body [PInt limit])).
Proof.
  intros Hj body limit cursor.
  assert (Hs : json_loads list_projects_type_error_text = None).
  { destruct (json_loads list_projects_type_error_text) eqn:E; [| reflexivity].
    assert (Hst : json_start list_projects_type_error_text = true) by (apply Hj; rewrite E; discriminate).
    vm_compute in Hst. discriminate. }
  assert (Hh : http_list_projects json_loads body limit cursor = PlainTextResponse list_projects_type_error_text).
  { unfold http_list_projects.
    assert (Ht : tool list_projects_sig body [PInt limit; cursor] = Ret list_projects_type_error_text)
      by reflexivity.
    rewrite Ht. unfold respond, maybe_json. rewrite Hs. reflexivity. }
  split; [exact Hh |].
  intros s Hb Hne. rewrite Hh.
  assert (Ht : tool list_projects_sig body [PInt limit] = Ret s)
    by (unfold tool, py_call; simpl; rewrite Hb; reflexivity).
  rewrite Ht. unfold respond, maybe_json.
  destruct (json_loads s); intros H; [discriminate |].
  injection H as H. apply Hne. symmetry. exact H.
Qed.

Lemma C3_witness :
  http_list_projects (fun _ => None) no_projects_body 20 PNone <>
  respond (fun _ => None) (tool list_projects_sig no_projects_body [PInt 20]).
Proof.
  apply (proj2 (C3_http_list_projects_diverges (fun _ => None) (fun s H => match H eq_refl with end)
                  no_projects_body 20 PNone) (u "No projects found for the configured Speckle account.")).
  - reflexivity.
  - vm_compute. discriminate.
Defined.

(** ** C4, C5, C10: get_property_by_path *)

Lemma split_dot_aux_nodot s cur :
  (forall c, In c s -> c <> 46%N) -> split_dot_aux s cur = [rev cur ++ s].
Proof.
  revert cur; induction s as [|c s IH]; intros cur H; simpl.
  - rewrite app_nil_r. reflexivity.
  - rewrite (proj2 (N.eqb_neq c 46) (H c (or_introl eq_refl))).
    rewrite IH by (intros; apply H; right; assumption). simpl. rewrite <- app_assoc. reflexivity.
Qed.

Lemma split_dot_aux_dot pre s cur :
  (forall c, In c pre -> c <> 46%N) ->
  split_dot_aux (pre ++ 46%N :: s) cur = (rev cur ++ pre) :: split_dot_aux s [].
Proof.
  revert cur; induction pre as [|c pre IH]; intros cur H; simpl.
  - rewrite app_nil_r. reflexivity.
  - rewrite (proj2 (N.eqb_neq c 46) (H c (or_introl eq_refl))).
    rewrite IH by (intros; apply H; right; assumption). simpl. rewrite <- app_assoc. reflexivity.
Qed.

Lemma split_long_index_path : split_dot long_index_path = [u "elements"; long_index].
Proof.
  unfold split_dot, long_index_path.
  change (u "elements." ++ long_index) with (u "elements" ++ 46%N :: long_index).
  rewrite split_dot_aux_dot by (vm_compute; intros c [H|[H|[H|[H|[H|[H|[H|[H|[]]]]]]]]]; subst; discriminate).
  rewrite split_dot_aux_nodot.
  - reflexivity.
  - intros c Hin. unfold long_index in Hin. apply repeat_spec in Hin. subst. discriminate.
Qed.

Lemma long_index_isdigit db : ascii_exact db -> py_isdigit db long_index = true.
Proof.
  intros Hdb. destruct (Hdb 49%N ltac:(lia)) as [H49 _]. simpl in H49.
  unfold long_index. change (repeat 49%N 4301) with (49%N :: repeat 49%N 4300).
  unfold py_isdigit. apply forallb_forall. intros c Hin.
  destruct Hin as [<-|Hin]; [exact H49 |]. apply repeat_spec in Hin. subst. exact H49.
Qed.

Lemma long_index_int db : py_int db long_index = None.
Proof.
  unfold py_int. destruct (decimal_value db long_index 0); [| reflexivity].
  unfold long_index. rewrite repeat_length. reflexivity.
Qed.

Lemma split_dot_aux_nonempty s cur : split_dot_aux s cur <> [].
Proof.
  revert cur; induction s as [|c s IH]; intros cur; simpl.
  - discriminate.
  - destruct (N.eqb c 46); [discriminate | apply IH].
Qed.

Lemma join_split_dot_aux s cur : join_dot (split_dot_aux s cur) = rev cur ++ s.
Proof.
  revert cur; induction s as [|c s IH]; intros cur; simpl.
  - rewrite app_nil_r. reflexivity.
  - destruct (N.eqb_spec c 46) as [->|Hc].
    + destruct (split_dot_aux s []) as [|p ps] eqn:E.
      * exfalso. exact (split_dot_aux_nonempty s [] E).
      * change (join_dot (rev cur :: p :: ps)) with (rev cur ++ 46%N :: join_dot (p :: ps)).
        rewrite <- E, IH. reflexivity.
    + rewrite IH. simpl. rewrite <- app_assoc. reflexivity.
Qed.

Lemma join_split_dot s : join_dot (split_dot s) = s.
Proof. apply join_split_dot_aux. Qed.

Section WalkFacts.
Variable db : unicode_db.
Variable ba : pyval -> pystr -> option pyval.

(** where an error is reported: after [i] segments walked successfully to
    [v], segment [i] fails, and the reported sub-path joins the first
    [i + 1] segments *)
Lemma walk_err_at parts : forall cur psf first e,
  walk db ba cur psf first parts = NavErr e ->
  exists i v, i < List.length parts /\
    walk db ba cur psf first (firstn i parts) = NavOk v /\
    err_path e = psf ++ (if first then [] else [46%N]) ++ join_dot (firstn (S i) parts) /\
    match e with
    | PropertyNotFound part _ =>
        part = nth i parts [] /\ lookup_member ba v part = None
    | IndexOutOfRange index _ =>
        py_int db (nth i parts []) = Some index /\
        exists xs, v = PList xs /\ List.length xs <= N.to_nat index
    end.
Proof.
  induction parts as [|part parts IH]; intros cur psf first e H; [discriminate |].
  set (psf' := psf ++ (if first then [] else [46%N]) ++ part).
  assert (Hgo : forall r, walk db ba r psf' false parts = NavErr e ->
            (forall l, walk db ba cur psf first (part :: l) = walk db ba r psf' false l) ->
            exists i v, i < List.length (part :: parts) /\
              walk db ba cur psf first (firstn i (part :: parts)) = NavOk v /\
              err_path e = psf ++ (if first then [] else [46%N]) ++ join_dot (firstn (S i) (part :: parts)) /\
              match e with
              | PropertyNotFound p _ => p = nth i (part :: parts) [] /\ lookup_member ba v p = None
              | IndexOutOfRange index _ =>
                  py_int db (nth i (part :: parts) []) = Some index /\
                  exists xs, v = PList xs /\ List.length xs <= N.to_nat index
              end).
  { intros r Hr Hstep. destruct (IH r psf' false e Hr) as (i & v & Hi & Hw & Hp & He).
    exists (S i), v. split; [simpl; lia |]. split.
    - change (firstn (S i) (part :: parts)) with (part :: firstn i parts). rewrite Hstep. exact Hw.
    - split; [| exact He]. rewrite Hp. unfold psf'.
      destruct parts as [|p ps]; [simpl in Hi; lia |].
      change (join_dot (firstn (S (S i)) (part :: p :: ps)))
        with (join_dot (part :: p :: firstn i ps)).
      change (join_dot (part :: p :: firstn i ps)) with (part ++ 46%N :: join_dot (p :: firstn i ps)).
      rewrite <- !app_assoc. reflexivity. }
  assert (Hpath : psf' = psf ++ (if first then [] else [46%N]) ++ join_dot (firstn 1 (part :: parts))).
  { reflexivity. }
  assert (Hlen : 0 < List.length (part :: parts)) by (simpl; lia).
  destruct cur as [| | | | | xs | kvs | attrs od td r]; cbn [walk] in H; fold psf' in H;
    try (destruct (lookup_member ba _ part) as [v|] eqn:El;
         [ apply (Hgo v H); intros l; cbn [walk]; fold psf'; rewrite El; reflexivity
         | injection H as <-; exists 0; eexists; split; [exact Hlen |]; split; [reflexivity |];
           split; [exact Hpath | split; [reflexivity | exact El]] ]).
  destruct (py_isdigit db part) eqn:Ed.
  - destruct (py_int db part) as [i|] eqn:Ei; [| discriminate].
    destruct (nth_error xs (N.to_nat i)) as [v|] eqn:En.
    + apply (Hgo v H). intros l. cbn [walk]. fold psf'. rewrite Ed, Ei, En. reflexivity.
    + injection H as <-. exists 0, (PList xs). split; [exact Hlen |]. split; [reflexivity |].
      split; [exact Hpath |]. split; [exact Ei |]. exists xs. split; [reflexivity |].
      apply nth_error_None. exact En.
  - destruct (lookup_member ba (PList xs) part) as [v|] eqn:El.
    + apply (Hgo v H). intros l. cbn [walk]. fold psf'. rewrite Ed, El. reflexivity.
    + injection H as <-. exists 0, (PList xs). split; [exact Hlen |]. split; [reflexivity |].
      split; [exact Hpath | split; [reflexivity | exact El]].
Qed.

Lemma walk_no_raise parts : forall cur psf first,
  (forall part, In part parts -> py_isdigit db part = true -> py_int db part <> None) ->
  walk db ba cur psf first parts <> NavRaise.
Proof.
  induction parts as [|part parts IH]; intros cur psf first Hp; simpl.
  - discriminate.
  - assert (Hr : forall v psf', walk db ba v psf' false parts <> NavRaise)
      by (intros; apply IH; intros; apply Hp; [right |]; assumption).
    destruct cur as [| | | | | xs | | ];
      try (destruct (lookup_member ba _ part); [apply Hr | discriminate]).
    destruct (py_isdigit db part) eqn:Ed.
    + destruct (py_int db part) as [i|] eqn:Ei.
      * destruct (nth_error xs (N.to_nat i)); [apply Hr | discriminate].
      * exfalso. exact (Hp part (or_introl eq_refl) Ed Ei).
    + destruct (lookup_member ba (PList xs) part); [apply Hr | discriminate].
Qed.
End WalkFacts.

Lemma join_dot_cons a l :
  join_dot (a :: l) = a ++ match l with [] => [] | _ => 46%N :: join_dot l end.
Proof. destruct l; [rewrite app_nil_r |]; reflexivity. Qed.

Lemma join_dot_firstn n l : exists rest, join_dot (firstn n l) ++ rest = join_dot l.
Proof.
  revert n; induction l as [|x l IH]; intros [|n].
  - exists []. reflexivity.
  - exists []. reflexivity.
  - exists (join_dot (x :: l)). reflexivity.
  - change (firstn (S n) (x :: l)) with (x :: firstn n l). rewrite !join_dot_cons.
    destruct (IH n) as [rest Hr].
    destruct (firstn n l) as [|y ys] eqn:Ef.
    + exists (match l with [] => [] | _ => 46%N :: join_dot l end). rewrite app_nil_r. reflexivity.
    + destruct l as [|z zs]; [destruct n; discriminate |].
      exists rest. rewrite <- app_assoc. f_equal. simpl. f_equal. exact Hr.
Qed.

(** X1: on every path whose digit segments all parse as integers,
    [get_property_by_path] does not raise; and whenever it reports an
    error, there is a segment [i] such that the first [i] segments walk
    successfully to a value [v], segment [i] fails on [v] (no member of
    that name, or an index past the end of the list [v]), and the sub-path
    in the message is the first [i + 1] segments joined with dots: a
    prefix of the input path. *)
Theorem get_property_by_path_total_prefix db ba root path :
  ((forall part, In part (split_dot path) -> py_isdigit db part = true -> py_int db part <> None) ->
   get_property_by_path db ba root path <> None) /\
  (forall e, resolve db ba root path = NavErr e ->
   get_property_by_path db ba root path = Some (PNone, Some (render_error e)) /\
   exists i v, i < List.length (split_dot path) /\
     walk db ba root [] true (firstn i (split_dot path)) = NavOk v /\
     err_path e = join_dot (firstn (S i) (split_dot path)) /\
     (exists rest, err_path e ++ rest = path) /\
     match e with
     | PropertyNotFound part _ =>
         part = nth i (split_dot path) [] /\ lookup_member ba v part = None
     | IndexOutOfRange index _ =>
         py_int db (nth i (split_dot path) []) = Some index /\
         exists xs, v = PList xs /\ List.length xs <= N.to_nat index
     end).
Proof.
  split.
  - intros Hp. unfold get_property_by_path.
    pose proof (walk_no_raise db ba (split_dot path) root [] true Hp) as Hn.
    unfold resolve. destruct (walk db ba root [] true (split_dot path)); try discriminate.
    exfalso. apply Hn. reflexivity.
  - intros e He. split.
    + unfold get_property_by_path. rewrite He. reflexivity.
    + destruct (walk_err_at db ba _ _ _ _ _ He) as (i & v & Hi & Hw & Hp & Hm).
      exists i, v. split; [exact Hi |]. split; [exact Hw |]. split; [exact Hp |].
      split; [| exact Hm].
      destruct (join_dot_firstn (S i) (split_dot path)) as [rest Hr].
      exists rest. rewrite Hp. exact (eq_trans Hr (join_split_dot path)).
Qed.

Lemma get_property_by_path_total_prefix_witness :
  get_property_by_path latin1_db no_builtin_attr (with_elements []) (u "elements.0.name") <> None /\
  exists i v, i < 2 /\
    walk latin1_db no_builtin_attr (with_elements []) [] true (firstn i [u "elements"; u "0"]) = NavOk v /\
    u "elements.0" = join_dot (firstn (S i) [u "elements"; u "0"]).
Proof.
  split.
  - apply (proj1 (get_property_by_path_total_prefix latin1_db no_builtin_attr (with_elements []) (u "elements.0.name"))).
    vm_compute. intros part [H|[H|[H|[]]]]; subst; discriminate.
  - destruct (proj2 (get_property_by_path_total_prefix latin1_db no_builtin_attr (with_elements []) (u "elements.0"))
                (IndexOutOfRange 0 (u "elements.0")) ltac:(vm_compute; reflexivity))
      as [_ (i & v & Hi & Hw & Hp & _)].
    exists i, v. exact (conj Hi (conj Hw Hp)).
Defined.

(** C4 (code_bug): the guard is [part.isdigit()] but the index is
    [int(part)]. Where the Unicode database calls U+00B2 SUPERSCRIPT TWO a
    digit without a decimal value (as it does), the path [elements.] then
    U+00B2, on an object whose [elements] is a list, makes [int()] raise
    ValueError: [get_property_by_path] raises instead of returning a value
    or an error. *)
Theorem C4_superscript_segment_raises db ba :
  u_isdigit db 178 = true -> u_decimal db 178 = None ->
  get_property_by_path db ba (with_elements [PInt 1]) superscript_two_path = None.
Proof.
  intros H1 H2. unfold get_property_by_path, resolve, superscript_two_path. simpl.
  rewrite H1. simpl. unfold py_int. simpl. rewrite H2. reflexivity.
Qed.

Lemma C4_witness :
  get_property_by_path latin1_db no_builtin_attr (with_elements [PInt 1]) superscript_two_path = None.
Proof. apply C4_superscript_segment_raises; reflexivity. Defined.

Lemma latin1_ascii_exact : ascii_exact latin1_db.
Proof.
  intros c Hc. simpl. split; [| reflexivity].
  destruct (N.eqb_spec c 178); [lia |].
  destruct (N.eqb_spec c 179); [lia |].
  destruct (N.eqb_spec c 185); [lia |].
  rewrite !orb_false_r. reflexivity.
Qed.

(** C5 (code_bug): an all-digit segment indexing a list fails with
    IndexOutOfRange(index, path_so_far) when the index is past the end,
    and the spec's example holds; but a segment of 4301 decimal digits
    makes [int(part)] raise ValueError (CPython's limit on the digits of
    [int()] of a string), so [get_property_by_path] raises instead of
    reporting IndexOutOfRange. *)
Theorem C5_index_out_of_range db ba :
  ascii_exact db ->
  (forall xs part i psf first rest,
     py_isdigit db part = true -> py_int db part = Some i -> (List.length xs <= N.to_nat i)%nat ->
     walk db ba (PList xs) psf first (part :: rest) =
       NavErr (IndexOutOfRange i (psf ++ (if first then [] else [46%N]) ++ part))) /\
  get_property_by_path db ba (with_elements []) (u "elements.0.name") =
    Some (PNone, Some (render_error (IndexOutOfRange 0 (u "elements.0")))) /\
  get_property_by_path db ba (with_elements []) long_index_path = None.
Proof.
  intros Hdb. split; [| split].
  - intros xs part i psf first rest Hd Hi Hl. simpl. rewrite Hd, Hi.
    rewrite (proj2 (nth_error_None xs (N.to_nat i)) Hl). reflexivity.
  - destruct (Hdb 48%N ltac:(lia)) as [H48a H48b]. simpl in H48a, H48b.
    unfold get_property_by_path, resolve. simpl. rewrite H48a. simpl.
    unfold py_int. simpl. rewrite H48b. reflexivity.
  - pose proof (long_index_isdigit db Hdb) as Hd. pose proof (long_index_int db) as Hi.
    unfold get_property_by_path, resolve. rewrite split_long_index_path.
    set (li := long_index) in *. clearbody li.
    simpl. rewrite Hd, Hi. reflexivity.
Qed.

Lemma C5_witness :
  get_property_by_path latin1_db no_builtin_attr (with_elements []) long_index_path = None.
Proof. apply (C5_index_out_of_range latin1_db no_builtin_attr latin1_ascii_exact). Defined.

Lemma C10_counterexample :
  get_property_by_path latin1_db no_builtin_attr c10_root [] = Some (PInt 1, None).
Proof. reflexivity. Qed.

(** C10 (amended): on the empty path, [get_property_by_path] never raises;
    it treats the path as the one segment [""] and returns the value found
    by the member lookup of that segment: the [""] key of a dict root, else
    the [""] attribute, else the [""] entry of [__dict__], else the
    attribute named [@] (the f-string [f'@{part}']); only when all four
    miss does it return PropertyNotFound("", ""). *)
Theorem C10_empty_path_amended db ba root :
  get_property_by_path db ba root [] =
    match lookup_member ba root [] with
    | Some v => Some (v, None)
    | None => Some (PNone, Some (render_error (PropertyNotFound [] [])))
    end.
Proof.
  unfold get_property_by_path, resolve. simpl.
  destruct root; simpl; destruct (lookup_member ba _ []); reflexivity.
Qed.

(** ** truncate_collection *)

Lemma keys_dict_set l k v :
  map fst (dict_set l k v) =
    if existsb (str_eqb k) (map fst l) then map fst l else map fst l ++ [k].
Proof.
  induction l as [|[k' v'] l IH]; simpl; [reflexivity |].
  destruct (str_eqb k k') eqn:E; simpl; [reflexivity |].
  rewrite IH. destruct (existsb (str_eqb k) (map fst l)); reflexivity.
Qed.

Lemma assoc_dict_set_same l k v : assoc k (dict_set l k v) = Some v.
Proof.
  induction l as [|[k' v'] l IH]; simpl.
  - rewrite str_eqb_refl. reflexivity.
  - destruct (str_eqb k k') eqn:E; simpl.
    + apply str_eqb_eq in E. subst. rewrite str_eqb_refl. reflexivity.
    + rewrite E. exact IH.
Qed.

(** X3: with a negative limit [-j], [truncate_collection] slices as Python
    does ([l[:-j]] keeps all but the last [j] elements) yet its sentinel
    reports [len + j] more items: more than it dropped, and even an empty
    list gains a sentinel. *)
Theorem truncate_collection_negative_limit (xs : list pyval) (limit : Z) :
  (limit < 0)%Z ->
  let kept := firstn (List.length xs - Z.to_nat (- limit)) xs in
  truncate_collection (PList xs) limit =
    PList (kept ++ [PDict [(u "_note", PStr (note_msg_Z (Z.of_nat (List.length xs) - limit)))]]) /\
  (Z.of_nat (List.length xs - List.length kept) < Z.of_nat (List.length xs) - limit)%Z.
Proof.
  intros H kept. split.
  - unfold truncate_collection.
    assert (Hn : (Z.of_nat (List.length xs) <=? limit)%Z = false) by (apply Z.leb_gt; lia).
    rewrite Hn. unfold py_slice_to.
    assert (Hl : (limit <? 0)%Z = true) by (apply Z.ltb_lt; exact H).
    rewrite Hl. unfold kept. do 3 f_equal. lia.
  - unfold kept. rewrite length_firstn. lia.
Qed.

Lemma truncate_collection_negative_limit_witness :
  truncate_collection (PList []) (-1) = PList [PDict [(u "_note", PStr (u "...1 more items"))]] /\
  (Z.of_nat (List.length (@nil pyval) - List.length (firstn (0 - 1) (@nil pyval))) < 0 - -1)%Z.
Proof.
  exact (truncate_collection_negative_limit [] (-1) ltac:(lia)).
Defined.

(** X4: [truncate_collection] of a mapping with more entries than a limit
    [k >= 0] keeps its first [k] entries, in order, then sets [_note] to
    the sentinel: a new last key, or, when [_note] is among the kept keys,
    that entry's value in place; no other kept entry changes. *)
Theorem truncate_collection_dict (kvs : list (pystr * pyval)) (limit : Z) :
  (0 <= limit < Z.of_nat (List.length kvs))%Z ->
  let kept := firstn (Z.to_nat limit) kvs in
  let note := PStr (note_msg_Z (Z.of_nat (List.length kvs) - limit)) in
  exists r, truncate_collection (PDict kvs) limit = PDict r /\
    map fst r = map fst kept ++ (if existsb (str_eqb (u "_note")) (map fst kept) then [] else [u "_note"]) /\
    assoc (u "_note") r = Some note /\
    (forall k, k <> u "_note" -> assoc k r = assoc k kept).
Proof.
  intros H kept note. unfold truncate_collection.
  assert (Hn : (Z.of_nat (List.length kvs) <=? limit)%Z = false) by (apply Z.leb_gt; lia).
  rewrite Hn. unfold py_slice_to.
  assert (Hl : (limit <? 0)%Z = false) by (apply Z.ltb_ge; lia).
  rewrite Hl. fold kept note.
  eexists. split; [reflexivity |]. split; [| split].
  - rewrite keys_dict_set. destruct (existsb (str_eqb (u "_note")) (map fst kept));
      [rewrite app_nil_r |]; reflexivity.
  - apply assoc_dict_set_same.
  - intros k Hk. apply assoc_dict_set_other. exact Hk.
Qed.

Lemma truncate_collection_dict_witness :
  exists r, truncate_collection (PDict c2_data) 5 = PDict r /\
    map fst r = map fst (firstn 5 c2_data) ++ [] /\
    assoc (u "_note") r = Some (PStr (u "...1 more items")) /\
    (forall k, k <> u "_note" -> assoc k r = assoc k (firstn 5 c2_data)).
Proof.
  exact (truncate_collection_dict c2_data 5 ltac:(simpl; lia)).
Defined.

(** ** format_datetime *)

Lemma pad_dec_length k n : List.length (pad_dec k n) = k.
Proof.
  revert n; induction k as [|k IH]; intros n; simpl; [reflexivity |].
  rewrite length_app, IH. simpl. lia.
Qed.

Lemma str_compare_refl s : str_compare s s = Eq.
Proof. induction s as [|x s IH]; simpl; [reflexivity |]. rewrite N.compare_refl. exact IH. Qed.

Lemma str_compare_app a1 a2 b1 b2 :
  List.length a1 = List.length b1 ->
  str_compare (a1 ++ a2) (b1 ++ b2) =
    match str_compare a1 b1 with Eq => str_compare a2 b2 | c => c end.
Proof.
  revert b1; induction a1 as [|x a1 IH]; intros [|y b1] H; simpl in *; try discriminate; [reflexivity |].
  destruct (N.compare x y); [apply IH; lia | reflexivity | reflexivity].
Qed.

Lemma compare_div_mod (n m : N) :
  N.compare n m =
    match N.compare (n / 10) (m / 10) with Eq => N.compare (n mod 10) (m mod 10) | c => c end.
Proof.
  pose proof (N.div_mod n 10 ltac:(lia)) as Hn. pose proof (N.div_mod m 10 ltac:(lia)) as Hm.
  pose proof (N.mod_lt n 10 ltac:(lia)) as Hn'. pose proof (N.mod_lt m 10 ltac:(lia)) as Hm'.
  remember (n / 10)%N as qn. remember (m / 10)%N as qm.
  remember (n mod 10)%N as rn. remember (m mod 10)%N as rm.
  destruct (N.compare_spec qn qm) as [E|E|E].
  - destruct (N.compare_spec rn rm) as [F|F|F];
      [apply N.compare_eq_iff | apply N.compare_lt_iff | apply N.compare_gt_iff]; lia.
  - apply N.compare_lt_iff. lia.
  - apply N.compare_gt_iff. lia.
Qed.

Lemma str_compare_single x y : str_compare [x] [y] = N.compare x y.
Proof. simpl. destruct (N.compare x y); reflexivity. Qed.

Lemma compare_add_l (p a b : N) : N.compare (p + a) (p + b) = N.compare a b.
Proof.
  destruct (N.compare_spec a b) as [E|E|E];
    [apply N.compare_eq_iff | apply N.compare_lt_iff | apply N.compare_gt_iff]; lia.
Qed.

Lemma pad_dec_compare k n m :
  (n < 10 ^ N.of_nat k)%N -> (m < 10 ^ N.of_nat k)%N ->
  str_compare (pad_dec k n) (pad_dec k m) = N.compare n m.
Proof.
  revert n m; induction k as [|k IH]; intros n m Hn Hm; cbn [pad_dec].
  - simpl in Hn, Hm. replace n with 0%N by lia. replace m with 0%N by lia. reflexivity.
  - rewrite str_compare_app by (rewrite !pad_dec_length; reflexivity).
    rewrite Nat2N.inj_succ, N.pow_succ_r' in Hn, Hm.
    rewrite IH by (apply N.Div0.div_lt_upper_bound; lia).
    rewrite (compare_div_mod n m), str_compare_single, compare_add_l. reflexivity.
Qed.

(** X5: for years 1000 to 9999, where every platform's [%Y] gives four
    digits, comparing the strings [format_datetime] produces (as Python
    compares [str]) orders datetimes chronologically: with
    [include_time=True] to the second, without it by date. *)
Theorem format_datetime_sorts fmt (a b : datetime) :
  (forall y, (1000 <= y <= 9999)%N -> fmt y = pad_dec 4 y) ->
  dt_valid a -> dt_valid b -> (1000 <= dt_year a)%N -> (1000 <= dt_year b)%N ->
  str_compare (format_datetime fmt a true) (format_datetime fmt b true) = chrono_compare a b /\
  str_compare (format_datetime fmt a false) (format_datetime fmt b false) =
    match N.compare (dt_year a) (dt_year b) with
    | Eq => match N.compare (dt_month a) (dt_month b) with
            | Eq => N.compare (dt_day a) (dt_day b)
            | c => c end
    | c => c end.
Proof.
  intros Hfmt Ha Hb Hya Hyb.
  destruct Ha as (Ya & Ma & Da & Ha & Mia & Sa). destruct Hb as (Yb & Mb & Db & Hb & Mib & Sb).
  unfold format_datetime, chrono_compare. rewrite !Hfmt by lia.
  assert (P4 : forall x y, (x <= 9999)%N -> (y <= 9999)%N -> str_compare (pad_dec 4 x) (pad_dec 4 y) = N.compare x y)
    by (intros; apply pad_dec_compare; simpl; lia).
  assert (P2 : forall x y, (x <= 99)%N -> (y <= 99)%N -> str_compare (pad_dec 2 x) (pad_dec 2 y) = N.compare x y)
    by (intros; apply pad_dec_compare; simpl; lia).
  assert (L : forall k x y, List.length (pad_dec k x) = List.length (pad_dec k y))
    by (intros; rewrite !pad_dec_length; reflexivity).
  split.
  - rewrite !str_compare_app by (reflexivity || apply L).
    rewrite P4 by lia. rewrite !P2 by lia. rewrite !str_compare_refl.
    destruct (N.compare (dt_year a) (dt_year b)); reflexivity.
  - rewrite !str_compare_app by (reflexivity || apply L).
    rewrite P4 by lia. rewrite !P2 by lia. rewrite !str_compare_refl.
    destruct (N.compare (dt_year a) (dt_year b)); reflexivity.
Qed.

Lemma format_datetime_sorts_witness :
  str_compare (format_datetime (pad_dec 4) dt_2024_03_07 true) (format_datetime (pad_dec 4) dt_2024_11_02 true) =
    chrono_compare dt_2024_03_07 dt_2024_11_02.
Proof.
  apply (format_datetime_sorts (pad_dec 4) dt_2024_03_07 dt_2024_11_02);
    [ intros; reflexivity | unfold dt_valid; simpl; lia | unfold dt_valid; simpl; lia
    | simpl; lia | simpl; lia ].
Defined.

(** *** Routing *)

Lemma dispatch_in_app rs1 rs2 path :
  dispatch_in (rs1 ++ rs2) path =
  match dispatch_in rs1 path with Some r => Some r | None => dispatch_in rs2 path end.
Proof.
  induction rs1 as [|[pat ep] rs1 IH]; simpl; [reflexivity |].
  destruct (match_segments pat (split_slash path)); [reflexivity | exact IH].
Qed.

Lemma dispatch_in_endpoint rs path ep ps :
  dispatch_in rs path = Some (ep, ps) -> In ep (map snd rs).
Proof.
  induction rs as [|[pat ep'] rs IH]; simpl; [discriminate |].
  destruct (match_segments pat (split_slash path)) eqn:E.
  - intros H. injection H as -> _. left; reflexivity.
  - intros H. right. exact (IH H).
Qed.

Lemma dispatch_in_none rs path pat ep :
  dispatch_in rs path = None -> In (pat, ep) rs -> match_segments pat (split_slash path) = None.
Proof.
  induction rs as [|[pat' ep'] rs IH]; simpl; [intros _ [] |].
  destruct (match_segments pat' (split_slash path)) eqn:E; [discriminate |].
  intros H [Heq | Hin]; [injection Heq as -> ->; exact E | exact (IH H Hin)].
Qed.

Lemma search_route_shadowed parts ps :
  match_segments (route_path "/projects/search") parts = Some ps ->
  match_segments (route_path "/projects/{project_id}") parts = Some [(u "project_id", u "search")].
Proof.
  change (route_path "/projects/search") with [Lit []; Lit (u "projects"); Lit (u "search")].
  change (route_path "/projects/{project_id}") with [Lit []; Lit (u "projects"); Param (u "project_id")].
  intros H. destruct parts as [|p0 [|p1 [|p2 [|p3 r]]]]; cbn [match_segments] in H |- *;
    repeat (lazymatch type of H with
            | context [str_eqb ?a ?b] => let E := fresh "E" in destruct (str_eqb a b) eqn:E
            end); try discriminate.
  match goal with E : str_eqb (u "search") p2 = true |- _ => apply str_eqb_eq in E; subst p2 end.
  reflexivity.
Qed.

Lemma dispatch_in_cons pat ep rs path :
  dispatch_in ((pat, ep) :: rs) path =
  match match_segments pat (split_slash path) with
  | Some ps => Some (ep, ps)
  | None => dispatch_in rs path
  end.
Proof. reflexivity. Qed.

Lemma dispatch_split path :
  dispatch path =
  match dispatch_in (firstn 8 routes) path with
  | Some r => Some r
  | None => dispatch_in (skipn 8 routes) path
  end.
Proof. unfold dispatch. rewrite <- dispatch_in_app, firstn_skipn. reflexivity. Qed.

Lemma routes_tail :
  skipn 8 routes = (route_path "/projects/search", EpSearchProjects) :: skipn 9 routes.
Proof. reflexivity. Qed.

Lemma routes_head_endpoints :
  map snd (firstn 8 routes) =
  [EpOpenapiJson; EpSwaggerDocs; EpSwaggerRedirect; EpRedoc;
   EpOpenapiYaml; EpPluginManifest; EpListProjects; EpGetProjectDetails].
Proof. reflexivity. Qed.

Lemma routes_last_endpoints :
  map snd (skipn 9 routes) = [EpGetModelVersions; EpGetVersionObjects; EpQueryObjectProperties].
Proof. reflexivity. Qed.

Lemma details_route_in_head :
  In (route_path "/projects/{project_id}", EpGetProjectDetails) (firstn 8 routes).
Proof. do 7 right. left. reflexivity. Qed.

Lemma routes_head_not_search path ep ps :
  dispatch_in (firstn 8 routes) path = Some (ep, ps) -> ep <> EpSearchProjects.
Proof.
  intros E1 ->. apply dispatch_in_endpoint in E1. rewrite routes_head_endpoints in E1.
  repeat destruct E1 as [E1|E1]; try discriminate; contradiction.
Qed.

Lemma search_match_head_matches path ps :
  match_segments (route_path "/projects/search") (split_slash path) = Some ps ->
  dispatch_in (firstn 8 routes) path <> None.
Proof.
  intros E2 E1. apply search_route_shadowed in E2.
  rewrite (dispatch_in_none _ _ _ _ E1 details_route_in_head) in E2. discriminate.
Qed.

Lemma routes_last_not_search path ps :
  dispatch_in (skipn 9 routes) path <> Some (EpSearchProjects, ps).
Proof.
  intros H. apply dispatch_in_endpoint in H. rewrite routes_last_endpoints in H.
  repeat destruct H as [H|H]; try discriminate; contradiction.
Qed.

(** X9: the [GET /projects/search] route can never be reached: it is
    registered after [GET /projects/{project_id}], whose pattern matches
    every path it matches, so [http_search_projects] never runs; a request
    for [/projects/search] is served by [http_get_project_details] with
    [project_id = "search"]. *)
Theorem search_route_unreachable (path : pystr) (ps : list (pystr * pystr)) :
  dispatch path <> Some (EpSearchProjects, ps) /\
  dispatch (u "/projects/search") = Some (EpGetProjectDetails, [(u "project_id", u "search")]).
Proof.
  split; [| reflexivity].
  rewrite dispatch_split.
  destruct (dispatch_in (firstn 8 routes) path) as [[ep ps']|] eqn:E1.
  - intros H. injection H as Hep _. exact (routes_head_not_search path ep ps' E1 Hep).
  - rewrite routes_tail, dispatch_in_cons.
    destruct (match_segments (route_path "/projects/search") (split_slash path)) as [ps'|] eqn:E2.
    + exact (False_ind _ (search_match_head_matches path ps' E2 E1)).
    + exact (routes_last_not_search path ps).
Qed.

(** *** The client singleton *)

Lemma bind_keeps {C A B} (m : M C A) (f : A -> M C B) s :
  keeps m s -> (forall a, keeps (f a) s) -> keeps (bind m f) s.
Proof.
  unfold keeps, bind. intros Hm Hf. destruct (m s) as [[a|e] s'] eqn:Em; simpl in Hm; subst s'.
  - apply Hf.
  - reflexivity.
Qed.

Lemma ret_keeps {C A} (a : A) (s : client_state C) : keeps (ret a) s.
Proof. reflexivity. Qed.

Lemma lift_keeps {C A} (o : outcome A) (s : client_state C) : keeps (lift o) s.
Proof. reflexivity. Qed.

Lemma handled_keeps {C} b (m : M C pystr) s : keeps m s -> keeps (handled b m) s.
Proof.
  unfold keeps, handled. intros H. destruct b; [| reflexivity].
  destruct (m s) as [r s'] eqn:Em. exact H.
Qed.

Lemma get_speckle_client_cached {C} (E : speckle_env C) s c :
  instance s = Some c -> get_speckle_client E s = (Ret c, s).
Proof. intros H. unfold get_speckle_client, get_instance. rewrite H. reflexivity. Qed.

Lemma bodies_keep_cached {C} (E : speckle_env C) call s c :
  instance s = Some c -> keeps (run_tool E call) s.
Proof.
  intros Hi. assert (Hg : keeps (get_speckle_client E) s)
    by (unfold keeps; rewrite (get_speckle_client_cached E s c Hi); reflexivity).
  destruct call; simpl; apply handled_keeps;
    unfold list_projects_body, get_project_details_body, search_projects_body,
      get_model_versions_body, get_version_objects_body, query_object_properties_body;
    repeat first
      [ assumption
      | apply bind_keeps
      | apply ret_keeps
      | apply lift_keeps
      | progress intros
      | match goal with |- keeps (match ?x with _ => _ end) _ => destruct x end ].
Qed.

Lemma create_instance_spec {C} (E : speckle_env C) s r s' :
  _create_instance E s = (r, s') ->
  created s' = S (created s) /\
  match r with Ret c => instance s' = Some c | Raise _ => instance s' = instance s end.
Proof.
  unfold _create_instance.
  destruct (new_client E (created s)) as [client|e].
  - destruct (speckle_token E) as [|t ts].
    + intros H. injection H as <- <-. split; reflexivity.
    + destruct (authenticate_with_token E client (t :: ts)) as [[]|e];
        intros H; injection H as <- <-; split; reflexivity.
  - intros H. injection H as <- <-. split; reflexivity.
Qed.

Lemma get_speckle_client_spec {C} (E : speckle_env C) s r s' :
  get_speckle_client E s = (r, s') ->
  (created s <= created s' <= S (S (created s)))%nat /\
  match r with
  | Ret c => instance s' = Some c
  | Raise _ => instance s' = None
  end.
Proof.
  unfold get_speckle_client, get_instance.
  destruct (instance s) as [c0|] eqn:Ei.
  - intros H. injection H as <- <-. split; [lia | exact Ei].
  - destruct (_create_instance E s) as [[c|e] s1] eqn:Ec;
      pose proof (create_instance_spec E s _ _ Ec) as [Hc1 Hi1].
    + intros H. injection H as <- <-. split; [lia | exact Hi1].
    + rewrite Ei in Hi1.
      assert (Hfail : (created s <= created s1 <= S (S (created s)))%nat /\ instance s1 = None)
        by (split; [lia | exact Hi1]).
      destruct e as [[|] [m|e']].
      * destruct (retry_worthy E m).
        -- unfold refresh_instance. intros H.
           pose proof (create_instance_spec E s1 _ _ H) as [Hc2 Hi2].
           split; [lia |]. destruct r; [exact Hi2 | rewrite Hi2; exact Hi1].
        -- intros H. injection H as <- <-. exact Hfail.
      * intros H. injection H as <- <-. exact Hfail.
      * intros H. injection H as <- <-. exact Hfail.
      * intros H. injection H as <- <-. exact Hfail.
Qed.

Lemma bind_raise {C A B} (m : M C A) (f : A -> M C B) s e s' :
  m s = (Raise e, s') -> bind m f s = (Raise e, s').
Proof. intros H. unfold bind. rewrite H. reflexivity. Qed.

Lemma bind_ret {C A B} (m : M C A) (f : A -> M C B) s a s' :
  m s = (Ret a, s') -> bind m f s = f a s'.
Proof. intros H. unfold bind. rewrite H. reflexivity. Qed.

Lemma handled_true {C} (m : M C pystr) s :
  handled true m s = (handle_exceptions (fst (m s)), snd (m s)).
Proof. unfold handled. destruct (m s). reflexivity. Qed.

Lemma render_error_nonempty e : exists c r, render_error e = c :: r.
Proof. destruct e; simpl; eexists; eexists; reflexivity. Qed.

Lemma create_no_token {C} (E : speckle_env C) s c :
  new_client E (created s) = Ret c -> speckle_token E = [] ->
  _create_instance E s = (Raise (value_error token_msg), Build_client_state (instance s) (S (created s))).
Proof.
  intros H1 H2. unfold _create_instance. rewrite H1.
  destruct (speckle_token E); [reflexivity | discriminate].
Qed.

(** X10: once [SpeckleClientSingleton._instance] holds a client, no tool
    call replaces or rebuilds it, whatever the Speckle API answers (an
    expired token included): the refresh only runs when obtaining the
    instance itself raises. *)
Theorem run_tool_keeps_cached_client {C} (E : speckle_env C) (call : tool_call)
    (s : client_state C) (c : C) :
  instance s = Some c -> snd (run_tool E call s) = s.
Proof. intros H. exact (bodies_keep_cached E call s c H). Qed.

Lemma run_tool_keeps_cached_client_witness :
  snd (run_tool (demo_env (u "tok")) (CallGetVersionObjects (u "p") (u "v1") false)
         (Build_client_state (Some tt) 1)) = Build_client_state (Some tt) 1.
Proof.
  apply (run_tool_keeps_cached_client (demo_env (u "tok")) _ (Build_client_state (Some tt) 1) tt).
  reflexivity.
Defined.

(** X11: when [get_speckle_client] returns a client, that client is the
    stored instance, and the next call returns it again without building
    anything. *)
Theorem get_speckle_client_caches {C} (E : speckle_env C) (s s' : client_state C) (c : C) :
  get_speckle_client E s = (Ret c, s') ->
  instance s' = Some c /\ get_speckle_client E s' = (Ret c, s').
Proof.
  intros H. pose proof (proj2 (get_speckle_client_spec E s _ _ H)) as Hi.
  split; [exact Hi | exact (get_speckle_client_cached E s' c Hi)].
Qed.

Lemma get_speckle_client_caches_witness :
  get_speckle_client (demo_env (u "tok")) (Build_client_state None 0) =
    (Ret tt, Build_client_state (Some tt) 1) /\
  instance (Build_client_state (Some tt) 1) = Some tt /\
  get_speckle_client (demo_env (u "tok")) (Build_client_state (Some tt) 1) =
    (Ret tt, Build_client_state (Some tt) 1).
Proof.
  split; [reflexivity |].
  apply (get_speckle_client_caches (demo_env (u "tok")) (Build_client_state None 0)).
  reflexivity.
Defined.

(** X12: [get_speckle_client] builds at most two clients (one retry, after
    an Exception whose message mentions authentication or a token), and
    when it raises no client is stored. *)
Theorem get_speckle_client_attempts {C} (E : speckle_env C) (s s' : client_state C) r :
  get_speckle_client E s = (r, s') ->
  (created s <= created s' <= created s + 2)%nat /\
  (forall e, r = Raise e -> instance s' = None).
Proof.
  intros H. destruct (get_speckle_client_spec E s r s' H) as [Hc Hi].
  split; [lia |]. intros e ->. exact Hi.
Qed.

Lemma get_speckle_client_attempts_witness :
  get_speckle_client (demo_env []) (Build_client_state None 0) =
    (Raise (value_error token_msg), Build_client_state None 2) /\
  (0 <= 2 <= 0 + 2)%nat /\
  (forall e, @Raise unit (value_error token_msg) = Raise e -> instance (Build_client_state (@None unit) 2) = None).
Proof.
  split; [reflexivity |].
  apply (get_speckle_client_attempts (demo_env []) (Build_client_state None 0)
           (Build_client_state None 2) (Raise (value_error token_msg))).
  reflexivity.
Defined.

(** X13: without a token, every tool call (with in-range int arguments)
    builds a client, fails with the token ValueError, retries once because
    the message mentions a token, fails again and answers the token
    message as an error text; no client is stored. *)
Theorem run_tool_without_token {C} (E : speckle_env C) (call : tool_call) (n : nat) (c1 c2 : C) :
  speckle_token E = [] ->
  new_client E n = Ret c1 ->
  new_client E (S n) = Ret c2 ->
  (forall m, is_ascii m = true -> py_lower E m = ascii_lower m) ->
  call_ints_ok call = true ->
  run_tool E call (Build_client_state None n) =
    (Ret (u "Error: " ++ token_msg ++ error_tail), Build_client_state None (S (S n))).
Proof.
  intros Htok Hn1 Hn2 Hlow Hints.
  assert (Hrw : retry_worthy E token_msg = true).
  { unfold retry_worthy. rewrite Hlow by reflexivity. reflexivity. }
  assert (Hg : get_speckle_client E (Build_client_state None n) =
                 (Raise (value_error token_msg), Build_client_state None (S (S n)))).
  { unfold get_speckle_client, get_instance, refresh_instance. cbn [instance].
    rewrite (create_no_token E (Build_client_state None n) c1 Hn1 Htok).
    unfold value_error. cbv beta iota.
    rewrite Hrw. exact (create_no_token E (Build_client_state None (S n)) c2 Hn2 Htok). }
  destruct call; cbn [run_tool call_ints_ok] in *.
  - unfold list_projects. rewrite Hints, handled_true. unfold list_projects_body.
    rewrite (bind_raise _ _ _ _ _ Hg). reflexivity.
  - unfold get_project_details. rewrite Hints, handled_true. unfold get_project_details_body.
    rewrite (bind_raise _ _ _ _ _ Hg). reflexivity.
  - unfold search_projects. rewrite handled_true. unfold search_projects_body.
    rewrite (bind_raise _ _ _ _ _ Hg). reflexivity.
  - unfold get_model_versions. rewrite Hints, handled_true. unfold get_model_versions_body.
    rewrite (bind_raise _ _ _ _ _ Hg). reflexivity.
  - unfold get_version_objects. rewrite handled_true. unfold get_version_objects_body.
    rewrite (bind_raise _ _ _ _ _ Hg). reflexivity.
  - unfold query_object_properties. rewrite handled_true. unfold query_object_properties_body.
    rewrite (bind_raise _ _ _ _ _ Hg). reflexivity.
Qed.

Lemma run_tool_without_token_witness :
  run_tool (demo_env []) (CallSearchProjects (u "wall")) (Build_client_state None 0) =
    (Ret (u "Error: " ++ token_msg ++ error_tail), Build_client_state None 2).
Proof.
  apply (run_tool_without_token (demo_env []) _ 0 tt tt);
    [reflexivity | reflexivity | reflexivity | intros m _; reflexivity | reflexivity].
Defined.

(** *** The query and object tools *)

Lemma bind_lift_ret {C A B} (a : A) (f : A -> M C B) s : bind (lift (Ret a)) f s = f a s.
Proof. reflexivity. Qed.

Lemma query_body_nav {C} (E : speckle_env C) s c p vid path v obj :
  instance s = Some c ->
  version_get E c vid p = Ret (Some v) ->
  receive E c p (v_referenced_object v) = Ret obj ->
  query_object_properties_body C E p vid path s =
    match get_property_by_path (nav_db E) (nav_builtin_attr E) obj path with
    | None => (Raise (value_error (int_error_msg E)), s)
    | Some (property_value, error) =>
        match error with
        | Some ((_ :: _) as msg) => (Ret (u "Error: " ++ msg), s)
        | _ =>
            (json_dumps (class_name E)
               (PDict [(u "property_path", PStr path);
                       (u "value", convert_value property_value)]), s)
        end
    end.
Proof.
  intros Hi Hv Hr. unfold query_object_properties_body.
  rewrite (bind_ret _ _ _ _ _ (get_speckle_client_cached E s c Hi)).
  rewrite Hv, bind_lift_ret. cbv beta iota.
  rewrite Hr, bind_lift_ret. cbv beta iota.
  destruct (get_property_by_path _ _ obj path) as [[pv [[|x r]|]]|]; reflexivity.
Qed.

(** X15: in [query_object_properties], a path that leads nowhere is
    answered as ["Error: " + message] without the trailing
    "For detailed logs" line, while an [int()] failure inside the
    navigation surfaces through [handle_exceptions] with that line;
    neither touches the client. *)
Theorem query_object_properties_errors {C} (E : speckle_env C) (s : client_state C) (c : C)
    (p vid path : pystr) (v : version) (obj : pyval) :
  instance s = Some c ->
  version_get E c vid p = Ret (Some v) ->
  receive E c p (v_referenced_object v) = Ret obj ->
  (forall e, resolve (nav_db E) (nav_builtin_attr E) obj path = NavErr e ->
     query_object_properties C E p vid path s = (Ret (u "Error: " ++ render_error e), s)) /\
  (resolve (nav_db E) (nav_builtin_attr E) obj path = NavRaise ->
     query_object_properties C E p vid path s =
       (Ret (u "Error: " ++ int_error_msg E ++ error_tail), s)).
Proof.
  intros Hi Hv Hr. unfold query_object_properties.
  rewrite handled_true, (query_body_nav E s c p vid path v obj Hi Hv Hr).
  unfold get_property_by_path. split.
  - intros e He. rewrite He.
    destruct (render_error_nonempty e) as [x [r Hre]]. rewrite Hre. reflexivity.
  - intros He. rewrite He. reflexivity.
Qed.

Lemma query_object_properties_errors_witness :
  query_object_properties unit (demo_env (u "tok")) (u "p") (u "v1") (u "missing")
    (Build_client_state (Some tt) 1) =
  (Ret (u "Error: " ++ render_error (PropertyNotFound (u "missing") (u "missing"))),
   Build_client_state (Some tt) 1).
Proof.
  apply (proj1 (query_object_properties_errors (demo_env (u "tok")) (Build_client_state (Some tt) 1)
                  tt (u "p") (u "v1") (u "missing") demo_version wall
                  eq_refl eq_refl eq_refl)).
  reflexivity.
Defined.

